(** * GxpFruDevice: the EEPROM record decoder and the FRU object lifecycle

    A shallow embedding of [src/GxpFruDevice.cpp].  The C++ stream
    [std::ifstream] is a record carrying the bytes of the file it has open,
    its read position and its state flags; the functions that take the
    stream by reference return the new stream next to their result.  The
    sdbusplus object server is a list of interfaces keyed by a handle (the
    identity of the [shared_ptr]); the functions that act on it run in a
    small state monad whose state also keeps a log of the file operations
    and a snapshot of the object server after each of its mutations. *)

From Stdlib Require Import String Ascii Bool NArith ZArith Lia List.
From Stdlib Require Import Strings.Byte.
Import ListNotations.

Local Open Scope list_scope.

(** ** Constants of the source *)

Definition unknown : string := "Unknown"%string.

Definition eeproms : list string :=
  [ "/sys/bus/i2c/devices/2-0055/eeprom"%string;
    "/sys/bus/i2c/devices/2-0054/eeprom"%string;
    "/sys/bus/i2c/devices/2-0050/eeprom"%string ].

Definition SerialNumberOffset : nat := 1.
Definition SerialNumberSize : nat := 16.
Definition PartNumberOffset : nat := 109.
Definition PartNumberSize : nat := 16.

Definition PcaSerialNumberOffset : nat := 144.
Definition PcaSerialNumberSize : nat := 16.
Definition PcaPartNumberOffset : nat := 160.
Definition PcaPartNumberSize : nat := 16.

Definition MAC0AddressOffset : nat := 132.
Definition MAC1AddressOffset : nat := 138.
Definition MACAddressSize : nat := 6.

Definition server_id_path : string := "/sys/class/soc/xreg/server_id"%string.

(** ** Files and input streams *)

(** The file system as the program sees it: a path either cannot be opened
    or gives the bytes of a file.  The program never writes. *)
Definition filesystem : Type := string -> option (list byte).

(** [std::ifstream].  [rdbuf] is the contents of the open file ([None]
    when no file is open), [gpos] the get position.  The model has no
    device errors, so [badbit] is never set and [operator!] is [failbit]. *)
Record ifstream : Type := mk_ifstream {
  rdbuf : option (list byte);
  gpos : nat;
  eofbit : bool;
  failbit : bool
}.

(** A default-constructed stream: no file, state [goodbit]. *)
Definition ifstream_new : ifstream := mk_ifstream None 0 false false.

Definition is_open (fin : ifstream) : bool :=
  match rdbuf fin with Some _ => true | None => false end.

(** [!fin] *)
Definition fail (fin : ifstream) : bool := failbit fin.

Definition good (fin : ifstream) : bool := negb (eofbit fin) && negb (failbit fin).

Definition setstate_fail (fin : ifstream) : ifstream :=
  mk_ifstream (rdbuf fin) (gpos fin) (eofbit fin) true.

(** [fin.open(path)] (C++11 and later): opening fails when the stream
    already has a file or the path cannot be opened, and sets [failbit];
    a successful open clears the state. *)
Definition open (fs : filesystem) (path : string) (fin : ifstream) : ifstream :=
  match rdbuf fin with
  | Some _ => setstate_fail fin
  | None =>
      match fs path with
      | Some bytes => mk_ifstream (Some bytes) 0 false false
      | None => setstate_fail fin
      end
  end.

(** [fin.close()]: sets [failbit] when no file was open; the other flags
    are kept. *)
Definition close (fin : ifstream) : ifstream :=
  match rdbuf fin with
  | Some _ => mk_ifstream None 0 (eofbit fin) (failbit fin)
  | None => setstate_fail fin
  end.

(** [fin.seekg(offset, std::ios::beg)]: clears [eofbit]; does nothing more
    on a failed stream; a seek past the end of a file succeeds. *)
Definition seekg (offset : nat) (fin : ifstream) : ifstream :=
  if failbit fin then mk_ifstream (rdbuf fin) (gpos fin) false true
  else match rdbuf fin with
       | Some _ => mk_ifstream (rdbuf fin) offset false false
       | None => mk_ifstream None (gpos fin) false true
       end.

(** Storing [got] at the start of the buffer [v]. *)
Definition store (got v : list byte) : list byte :=
  got ++ skipn (length got) v.

(** [fin.read(v.data(), n)]: on a stream that is not good nothing is read
    and [failbit] is set; otherwise the bytes from the get position on, at
    most [n] of them, are stored in the buffer, and fewer than [n] set
    [eofbit] and [failbit]. *)
Definition read (v : list byte) (n : nat) (fin : ifstream) : list byte * ifstream :=
  if good fin then
    match rdbuf fin with
    | Some bytes =>
        let got := firstn n (skipn (gpos fin) bytes) in
        let short := Nat.ltb (length got) n in
        (store got v,
         mk_ifstream (rdbuf fin) (gpos fin + length got) short short)
    | None => (v, mk_ifstream None (gpos fin) (Nat.ltb 0 n) (Nat.ltb 0 n))
    end
  else (v, setstate_fail fin).

(** The characters of a line: up to the first newline, which is consumed
    and dropped.  The boolean tells whether a newline was found. *)
Fixpoint line_of (bytes : list byte) : list byte * bool :=
  match bytes with
  | [] => ([], false)
  | b :: rest =>
      if Byte.eqb b x0a then ([], true)
      else let '(l, nl) := line_of rest in (b :: l, nl)
  end.

(** [getline(fin, id)]: on a stream that is not good [id] is left as it
    is and [failbit] is set; otherwise [id] is erased and receives the
    line.  Reaching the end of the file sets [eofbit], and extracting
    nothing at all (no character and no newline) sets [failbit]. *)
Definition getline (fin : ifstream) (id : string) : string * ifstream :=
  if good fin then
    match rdbuf fin with
    | Some bytes =>
        let '(l, nl) := line_of (skipn (gpos fin) bytes) in
        if nl then
          (string_of_list_byte l,
           mk_ifstream (rdbuf fin) (gpos fin + length l + 1) false false)
        else
          (string_of_list_byte l,
           mk_ifstream (rdbuf fin) (gpos fin + length l) true
                       (Nat.eqb (length l) 0))
    | None => (EmptyString, mk_ifstream None (gpos fin) true true)
    end
  else (id, setstate_fail fin).

(** ** Formatting integers in a [std::stringstream] *)

(** Whether plain [char] is signed is fixed by the platform, not by the
    source: the functions that convert a [char] take it as [char_signed]. *)

(** [static_cast<int>(c)] *)
Definition int_of_char (char_signed : bool) (c : byte) : Z :=
  let n := Z.of_N (Byte.to_N c) in
  if char_signed && (128 <=? n)%Z then (n - 256)%Z else n.

Definition hex_digit (d : N) : ascii :=
  nth (N.to_nat d)
      [ "0"; "1"; "2"; "3"; "4"; "5"; "6"; "7";
        "8"; "9"; "a"; "b"; "c"; "d"; "e"; "f" ]%char "0"%char.

(** The hexadecimal digits of [n], most significant first, in front of
    [acc]; [fuel] bounds the number of digits. *)
Fixpoint to_hex (fuel : nat) (n : N) (acc : string) : string :=
  match fuel with
  | O => acc
  | S fuel' =>
      let acc' := String (hex_digit (n mod 16)) acc in
      if (n / 16 =? 0)%N then acc' else to_hex fuel' (n / 16) acc'
  end.

Fixpoint fill (n : nat) (c : ascii) (s : string) : string :=
  match n with
  | O => s
  | S n' => String c (fill n' c s)
  end.

(** [ss << std::setw(w) << i] on a stream set up with [std::setbase(16)]
    and [std::setfill('0')]: a 32-bit [int] is printed in base 16 as the
    unsigned value of its bits, in lower case, and padded on the left to
    the width. *)
Definition put_int (w : nat) (i : Z) : string :=
  let digits := to_hex 8 (Z.to_N (i mod 2 ^ 32)) EmptyString in
  fill (w - String.length digits) "0"%char digits.

(** ** The field readers *)

(** [GetStr]; [std::vector<char> v(size)] is [size] zero bytes. *)
Definition GetStr (fin : ifstream) (offset size : nat) : string * ifstream :=
  if fail fin then (unknown, fin)
  else
    let v := repeat x00 size in
    let fin := seekg offset fin in
    let '(v, fin) := read v size fin in
    (string_of_list_byte v, fin).

(** The buffer of [GetMACAddress] after its guarded read. *)
Definition mac_buffer (fin : ifstream) (offset : nat) : list byte * ifstream :=
  let v := repeat x00 MACAddressSize in
  if negb (fail fin) then read v MACAddressSize (seekg offset fin)
  else (v, fin).

(** The formatting part of [GetMACAddress]: [v[0]], then a colon and
    [v[i]] for [i] from 1 up to [v.size()]. *)
Definition format_mac (char_signed : bool) (v : list byte) : string :=
  fold_left
    (fun ss i =>
       (ss ++ ":" ++ put_int 2 (int_of_char char_signed (nth i v x00)))%string)
    (seq 1 (length v - 1))
    (put_int 2 (int_of_char char_signed (nth 0 v x00))).

(** [GetMACAddress] *)
Definition GetMACAddress (char_signed : bool) (fin : ifstream) (offset : nat)
  : string * ifstream :=
  let '(v, fin) := mac_buffer fin offset in
  (format_mac char_signed v, fin).

Definition bytes_of (l : list N) : list byte :=
  map (fun n => match Byte.of_N n with Some b => b | None => x00 end) l.

(** The six values read from an open EEPROM, in the order in which
    [AddFRUObjectToDbus] (and [DumpFRU]) read them. *)
Record fru_fields : Type := mk_fields {
  part_number : string;
  serial_number : string;
  pca_part_number : string;
  pca_serial_number : string;
  mac0 : string;
  mac1 : string
}.

(** The reads of the body of [if (fin.is_open())], without the
    registration of the values. *)
Definition decode (char_signed : bool) (fin : ifstream) : fru_fields * ifstream :=
  let '(pn, fin) := GetStr fin PartNumberOffset PartNumberSize in
  let '(sn, fin) := GetStr fin SerialNumberOffset SerialNumberSize in
  let '(ppn, fin) := GetStr fin PcaPartNumberOffset PcaPartNumberSize in
  let '(psn, fin) := GetStr fin PcaSerialNumberOffset PcaSerialNumberSize in
  let '(m0, fin) := GetMACAddress char_signed fin MAC0AddressOffset in
  let '(m1, fin) := GetMACAddress char_signed fin MAC1AddressOffset in
  (mk_fields pn sn ppn psn m0 m1, fin).

(** ** The object server *)

(** [sdbusplus::asio::dbus_interface]: an object path, an interface name,
    the registered properties (all of them strings here) and methods, and
    whether [initialize] has put it on the bus. *)
Record dbus_interface : Type := mk_iface {
  if_path : string;
  if_name : string;
  if_properties : list (string * string);
  if_methods : list string;
  if_initialized : bool
}.

(** The identity of a [std::shared_ptr<dbus_interface>]; [nullptr] is
    [None] of [option handle]. *)
Abbreviation handle := nat (only parsing).

(** [sdbusplus::asio::object_server]: the interfaces it holds, in the
    order of their creation, and the next fresh identity. *)
Record object_server : Type := mk_server {
  interfaces_ : list (handle * dbus_interface);
  next_handle : handle
}.

Inductive io_event : Type :=
| IoOpen (path : string) (ok : bool)
| IoClose.

(** The state the program runs in: the global [objServer], and two logs
    kept for the statements: the object server after each of its
    mutations and the file operations. *)
Record world : Type := mk_world {
  objServer : object_server;
  bus_log : list object_server;
  io_log : list io_event
}.

Definition M (A : Type) : Type := world -> A * world.

Definition ret {A : Type} (a : A) : M A := fun w => (a, w).

Definition bind {A B : Type} (m : M A) (k : A -> M B) : M B :=
  fun w => let '(a, w') := m w in k a w'.

Notation "x <- m ;; k" := (bind m (fun x => k))
  (at level 61, m at next level, right associativity).
Notation "m ;;; k" := (bind m (fun _ => k))
  (at level 61, right associativity).

Definition update_server (f : object_server -> object_server) : M unit :=
  fun w =>
    let srv := f (objServer w) in
    (tt, mk_world srv (bus_log w ++ [srv]) (io_log w)).

Definition log_io (e : io_event) : M unit :=
  fun w => (tt, mk_world (objServer w) (bus_log w) (io_log w ++ [e])).

Definition modify_iface (h : handle) (f : dbus_interface -> dbus_interface)
  (srv : object_server) : object_server :=
  mk_server
    (map (fun e => if Nat.eqb (fst e) h then (fst e, f (snd e)) else e)
         (interfaces_ srv))
    (next_handle srv).

(** [objServer.add_interface(path, name)] *)
Definition add_interface (path name : string) : M handle :=
  fun w =>
    let h := next_handle (objServer w) in
    let '(_, w') :=
      update_server
        (fun srv =>
           mk_server (interfaces_ srv ++ [(h, mk_iface path name [] [] false)])
                     (S h)) w in
    (h, w').

(** [objServer.remove_interface(iface)] *)
Definition remove_interface (h : handle) : M unit :=
  update_server
    (fun srv =>
       mk_server (filter (fun e => negb (Nat.eqb (fst e) h)) (interfaces_ srv))
                 (next_handle srv)).

Definition has_property (name : string) (i : dbus_interface) : bool :=
  existsb (String.eqb name) (map fst (if_properties i)).

Definition add_property (name value : string) (i : dbus_interface)
  : dbus_interface :=
  if if_initialized i || has_property name i then i
  else mk_iface (if_path i) (if_name i) (if_properties i ++ [(name, value)])
                (if_methods i) (if_initialized i).

(** [iface->register_property(name, value)]: refused once the interface
    is initialized or when it has a property of that name. *)
Definition register_property (h : handle) (name value : string) : M unit :=
  update_server (modify_iface h (add_property name value)).

Definition add_method (name : string) (i : dbus_interface) : dbus_interface :=
  if if_initialized i || existsb (String.eqb name) (if_methods i) then i
  else mk_iface (if_path i) (if_name i) (if_properties i)
                (if_methods i ++ [name]) (if_initialized i).

(** [iface->register_method(name, callback)] *)
Definition register_method (h : handle) (name : string) : M unit :=
  update_server (modify_iface h (add_method name)).

Definition set_initialized (i : dbus_interface) : dbus_interface :=
  mk_iface (if_path i) (if_name i) (if_properties i) (if_methods i) true.

(** [iface->initialize()] *)
Definition initialize (h : handle) : M unit :=
  update_server (modify_iface h set_initialized).

(** [fin.open(path)] and [fin.close()], logged. *)
Definition fin_open (fs : filesystem) (path : string) (fin : ifstream)
  : M ifstream :=
  let fin' := open fs path fin in
  log_io (IoOpen path (negb (fail fin'))) ;;; ret fin'.

Definition fin_close (fin : ifstream) : M ifstream :=
  log_io IoClose ;;; ret (close fin).

(** ** The program *)

(** [GetServerId] *)
Definition GetServerId (fs : filesystem) : M string :=
  let id := EmptyString in
  fin <- fin_open fs server_id_path ifstream_new ;;
  if fail fin then ret unknown
  else
    let '(id, fin) := getline fin id in
    fin <- fin_close fin ;;
    ret id.

(** [GetManufactuer] *)
Definition GetManufactuer : string := "Hewlett Packard Enterprise"%string.

Definition productName : string := "/xyz/openbmc_project/FruDevice/HPE"%string.

(** The loop [for (std::string eeprom : eeproms)] of [AddFRUObjectToDbus],
    which ends at the first path that opens. *)
Fixpoint scan_eeproms (char_signed : bool) (fs : filesystem) (iface : handle)
  (paths : list string) (fin : ifstream) : M ifstream :=
  match paths with
  | [] => ret fin
  | eeprom :: rest =>
      fin <- fin_open fs eeprom fin ;;
      if is_open fin then
        let '(s, fin) := GetStr fin PartNumberOffset PartNumberSize in
        register_property iface "PRODUCT_PART_NUMBER" s ;;;
        let '(s, fin) := GetStr fin SerialNumberOffset SerialNumberSize in
        register_property iface "PRODUCT_SERIAL_NUMBER" s ;;;
        let '(s, fin) := GetStr fin PcaPartNumberOffset PcaPartNumberSize in
        register_property iface "PCA_PART_NUMBER" s ;;;
        let '(s, fin) := GetStr fin PcaSerialNumberOffset PcaSerialNumberSize in
        register_property iface "PCA_SERIAL_NUMBER" s ;;;
        let '(s, fin) := GetMACAddress char_signed fin MAC0AddressOffset in
        register_property iface "MAC0" s ;;;
        let '(s, fin) := GetMACAddress char_signed fin MAC1AddressOffset in
        register_property iface "MAC1" s ;;;
        fin_close fin
      else scan_eeproms char_signed fs iface rest fin
  end.

(** [AddFRUObjectToDbus]; the reference parameter [iface] is returned. *)
Definition AddFRUObjectToDbus (char_signed : bool) (fs : filesystem)
  (iface : option handle) : M (option handle) :=
  h <- add_interface productName "xyz.openbmc_project.FruDevice" ;;
  let iface := Some h in
  id <- GetServerId fs ;;
  register_property h "SERVER_ID" id ;;;
  register_property h "PRODUCT_MANUFACTURER" GetManufactuer ;;;
  let fin := ifstream_new in
  _ <- scan_eeproms char_signed fs h eeproms fin ;;
  initialize h ;;;
  ret iface.

(** [rescanBus] *)
Definition rescanBus (char_signed : bool) (fs : filesystem)
  (iface : option handle) : M (option handle) :=
  match iface with
  | Some h => remove_interface h
  | None => ret tt
  end ;;;
  AddFRUObjectToDbus char_signed fs iface.

Definition managerPath : string := "/xyz/openbmc_project/FruDevice"%string.

(** [main] up to [io.run()]: the manager object with its [ReScan]
    method, then the initial scan.  The result is [ifaceFruDevice] and
    [ifaceFruDeviceManager].  The bus connection and [request_name] are
    not part of the model. *)
Definition main_startup (char_signed : bool) (fs : filesystem)
  : M (option handle * handle) :=
  let ifaceFruDevice := None in
  ifaceFruDeviceManager <-
    add_interface managerPath "xyz.openbmc_project.FruDeviceManager" ;;
  register_method ifaceFruDeviceManager "ReScan" ;;;
  initialize ifaceFruDeviceManager ;;;
  ifaceFruDevice <- rescanBus char_signed fs ifaceFruDevice ;;
  ret (ifaceFruDevice, ifaceFruDeviceManager).

(** [io.run()] serving [ReScan] calls one after the other, each with the
    file system as it is at the time of the call. *)
Fixpoint serve (char_signed : bool) (calls : list filesystem)
  (ifaceFruDevice : option handle) : M (option handle) :=
  match calls with
  | [] => ret ifaceFruDevice
  | fs :: calls' =>
      ifaceFruDevice <- rescanBus char_signed fs ifaceFruDevice ;;
      serve char_signed calls' ifaceFruDevice
  end.

(** The world at the start of [main]. *)
Definition world0 : world := mk_world (mk_server [] 0) [] [].

(** [main]: start-up, then the [ReScan] calls. *)
Definition main (char_signed : bool) (fs : filesystem) (calls : list filesystem)
  : M (option handle * handle) :=
  r <- main_startup char_signed fs ;;
  ifaceFruDevice <- serve char_signed calls (fst r) ;;
  ret (ifaceFruDevice, snd r).

(** ** Observations *)

Definition find_iface (h : handle) (srv : object_server) : option dbus_interface :=
  option_map snd (find (fun e => Nat.eqb (fst e) h) (interfaces_ srv)).

Definition get_property (name : string) (i : dbus_interface) : option string :=
  option_map snd (find (fun p => String.eqb name (fst p)) (if_properties i)).

(** The objects the server holds at a path. *)
Definition objects_at (path : string) (srv : object_server)
  : list (handle * dbus_interface) :=
  filter (fun e => String.eqb (if_path (snd e)) path) (interfaces_ srv).

(** A file system for examples: the listed paths, nothing else. *)
Fixpoint fs_of (files : list (string * list byte)) : filesystem :=
  fun path =>
    match files with
    | [] => None
    | (p, bytes) :: rest =>
        if String.eqb path p then Some bytes else fs_of rest path
    end.

(** ** Definitions for the statements about the decoder *)

(** The state of a stream right after it has opened a file. *)
Definition opened (bytes : list byte) : ifstream :=
  mk_ifstream (Some bytes) 0 false false.

(** The bytes of a file from [offset] on, at most [size] of them. *)
Definition range (bytes : list byte) (offset size : nat) : list byte :=
  firstn size (skipn offset bytes).

(** The buffer of [size] zero bytes after the available bytes of the
    range have been read into it. *)
Definition padded (bytes : list byte) (offset size : nat) : list byte :=
  store (range bytes offset size) (repeat x00 size).

(** The stream reads the file [bytes]. *)
Definition on_file (bytes : list byte) (fin : ifstream) : Prop :=
  rdbuf fin = Some bytes.

Definition zero_mac : string := "00:00:00:00:00:00"%string.

(** The read of [size] bytes at [offset] comes up short: fewer than
    [size] bytes are left from [offset] on. *)
Definition short (bytes : list byte) (offset size : nat) : bool :=
  Nat.ltb (length bytes - offset) size.

(** What [decode] gives on a stream that reads [bytes] and has not
    failed: every field is decided by the reads that came before it. *)
Definition decoded (char_signed : bool) (bytes : list byte) : fru_fields :=
  let f1 := short bytes PartNumberOffset PartNumberSize in
  let f2 := f1 || short bytes SerialNumberOffset SerialNumberSize in
  let f3 := f2 || short bytes PcaPartNumberOffset PcaPartNumberSize in
  let f4 := f3 || short bytes PcaSerialNumberOffset PcaSerialNumberSize in
  let f5 := f4 || short bytes MAC0AddressOffset MACAddressSize in
  let str failed offset size :=
    if failed : bool then unknown
    else string_of_list_byte (padded bytes offset size) in
  let mac failed offset :=
    format_mac char_signed
      (if failed : bool then repeat x00 MACAddressSize
       else padded bytes offset MACAddressSize) in
  mk_fields (str false PartNumberOffset PartNumberSize)
            (str f1 SerialNumberOffset SerialNumberSize)
            (str f2 PcaPartNumberOffset PcaPartNumberSize)
            (str f3 PcaSerialNumberOffset PcaSerialNumberSize)
            (mac f4 MAC0AddressOffset)
            (mac f5 MAC1AddressOffset).

(** The fields as the layout table gives them: each one the bytes of its
    range, the text fields verbatim and the MAC fields formatted. *)
Definition layout_fields (char_signed : bool) (bytes : list byte) : fru_fields :=
  mk_fields
    (string_of_list_byte (range bytes 109 16))
    (string_of_list_byte (range bytes 1 16))
    (string_of_list_byte (range bytes 160 16))
    (string_of_list_byte (range bytes 144 16))
    (format_mac char_signed (range bytes 132 6))
    (format_mac char_signed (range bytes 138 6)).

(** The offsets and sizes of the reads, and the values they give, in the
    order of the reads. *)
Definition extraction_order : list (nat * nat) :=
  [ (PartNumberOffset, PartNumberSize);
    (SerialNumberOffset, SerialNumberSize);
    (PcaPartNumberOffset, PcaPartNumberSize);
    (PcaSerialNumberOffset, PcaSerialNumberSize);
    (MAC0AddressOffset, MACAddressSize);
    (MAC1AddressOffset, MACAddressSize) ].

Definition field_values (f : fru_fields) : list string :=
  [ part_number f; serial_number f; pca_part_number f; pca_serial_number f;
    mac0 f; mac1 f ].

(** What the read number [j] gives on a failed stream. *)
Definition after_failure (j : nat) : string :=
  if Nat.ltb j 4 then unknown else zero_mac.

(** A text field has a defined value: the sentinel, or the buffer with
    the available bytes of its range. *)
Definition text_field_defined (bytes : list byte) (offset : nat) (s : string)
  : Prop :=
  s = unknown \/ s = string_of_list_byte (padded bytes offset 16).

Definition mac_field_defined (char_signed : bool) (bytes : list byte)
  (offset : nat) (s : string) : Prop :=
  s = zero_mac \/ s = format_mac char_signed (padded bytes offset 6).

(** A byte as two hexadecimal digits. *)
Definition hex2 (b : byte) : string :=
  String (hex_digit (Byte.to_N b / 16))
         (String (hex_digit (Byte.to_N b mod 16)) EmptyString).

Definition high_bit (b : byte) : bool := (128 <=? Byte.to_N b)%N.

(** ** Definitions for the statements about the object server *)

(** The value and the file operations of [GetServerId], which do not
    depend on the world it runs in. *)
Definition server_id (fs : filesystem) : string :=
  fst (GetServerId fs world0).

Definition server_id_io (fs : filesystem) : list io_event :=
  io_log (snd (GetServerId fs world0)).

(** The bytes of the first path that opens. *)
Fixpoint first_open (fs : filesystem) (paths : list string)
  : option (list byte) :=
  match paths with
  | [] => None
  | p :: rest =>
      match fs p with
      | Some bytes => Some bytes
      | None => first_open fs rest
      end
  end.

Definition base_props (sid : string) : list (string * string) :=
  [ ("SERVER_ID"%string, sid);
    ("PRODUCT_MANUFACTURER"%string, GetManufactuer) ].

Definition fields_props (f : fru_fields) : list (string * string) :=
  [ ("PRODUCT_PART_NUMBER"%string, part_number f);
    ("PRODUCT_SERIAL_NUMBER"%string, serial_number f);
    ("PCA_PART_NUMBER"%string, pca_part_number f);
    ("PCA_SERIAL_NUMBER"%string, pca_serial_number f);
    ("MAC0"%string, mac0 f);
    ("MAC1"%string, mac1 f) ].

(** The properties the scan loop registers. *)
Definition scanned_props (char_signed : bool) (fs : filesystem)
  (paths : list string) : list (string * string) :=
  match first_open fs paths with
  | Some bytes => fields_props (decoded char_signed bytes)
  | None => []
  end.

(** The file operations of the scan loop. *)
Fixpoint scan_io (fs : filesystem) (paths : list string) : list io_event :=
  match paths with
  | [] => []
  | p :: rest =>
      match fs p with
      | Some _ => [IoOpen p true; IoClose]
      | None => IoOpen p false :: scan_io fs rest
      end
  end.

(** The FRU device interface with the given properties. *)
Definition fru_iface (props : list (string * string)) (initialized : bool)
  : dbus_interface :=
  mk_iface productName "xyz.openbmc_project.FruDevice" props [] initialized.

(** The object server that holds [l] and, last, the FRU device interface
    under the handle [h]. *)
Definition with_fru (l : list (handle * dbus_interface)) (h next : handle)
  (props : list (string * string)) (initialized : bool) : object_server :=
  mk_server (l ++ [(h, fru_iface props initialized)]) next.

(** The prefixes of a list, shortest first. *)
Definition prefixes {A : Type} (l : list A) : list (list A) :=
  map (fun k => firstn k l) (seq 0 (S (length l))).

(** The manager object as [main] sets it up. *)
Definition manager_iface : dbus_interface :=
  mk_iface managerPath "xyz.openbmc_project.FruDeviceManager" []
           ["ReScan"%string] true.

Definition fresh (h : handle) (l : list (handle * dbus_interface)) : Prop :=
  Forall (fun e => fst e <> h) l.

(** The six names of the properties read from the EEPROM. *)
Definition eeprom_property_names : list string :=
  [ "PRODUCT_PART_NUMBER"%string; "PRODUCT_SERIAL_NUMBER"%string;
    "PCA_PART_NUMBER"%string; "PCA_SERIAL_NUMBER"%string;
    "MAC0"%string; "MAC1"%string ].

(** The properties of the FRU object a scan publishes. *)
Definition published_props (char_signed : bool) (fs : filesystem)
  : list (string * string) :=
  base_props (server_id fs) ++ scanned_props char_signed fs eeproms.

(** The snapshots a scan adds to the log: the FRU interface under
    construction, one property more at a time, then initialized. *)
Definition scan_snapshots (char_signed : bool) (fs : filesystem)
  (l : list (handle * dbus_interface)) (n : handle) : list object_server :=
  map (fun ps => with_fru l n (S n) ps false)
      (prefixes (published_props char_signed fs))
  ++ [with_fru l n (S n) (published_props char_signed fs) true].

(** The object server once the manager object is set up: the manager
    object as [main] made it, alone or followed by one FRU interface. *)
Definition steady (srv : object_server) : Prop :=
  interfaces_ srv = [(0, manager_iface)]
  \/ exists h props initialized,
       0 < h
       /\ interfaces_ srv = [(0, manager_iface); (h, fru_iface props initialized)].

(** The first two snapshots of [main]: the manager interface created,
    then given its method. *)
Definition startup_snapshots : list object_server :=
  [ mk_server
      [(0, mk_iface managerPath "xyz.openbmc_project.FruDeviceManager" [] []
                    false)] 1;
    mk_server
      [(0, mk_iface managerPath "xyz.openbmc_project.FruDeviceManager" []
                    ["ReScan"%string] false)] 1 ].

(** ** [DumpFRU] *)

(** [std::endl] *)
Definition endl : string := String "010"%char EmptyString.

(** The loop of [DumpFRU]; [cout] is what has been written to the
    standard output. *)
Fixpoint dump_eeproms (char_signed : bool) (fs : filesystem)
  (paths : list string) (fin : ifstream) (cout : string)
  : M (ifstream * string) :=
  match paths with
  | [] => ret (fin, cout)
  | eeprom :: rest =>
      fin <- fin_open fs eeprom fin ;;
      if is_open fin then
        let '(s, fin) := GetStr fin PartNumberOffset PartNumberSize in
        let cout := (cout ++ "PartNumber=" ++ s ++ endl)%string in
        let '(s, fin) := GetStr fin SerialNumberOffset SerialNumberSize in
        let cout := (cout ++ "SerialNumber=" ++ s ++ endl)%string in
        let '(s, fin) := GetStr fin PcaPartNumberOffset PcaPartNumberSize in
        let cout := (cout ++ "PCAPartNumber=" ++ s ++ endl)%string in
        let '(s, fin) := GetStr fin PcaSerialNumberOffset PcaSerialNumberSize in
        let cout := (cout ++ "PCASerialNumber=" ++ s ++ endl)%string in
        let '(s, fin) := GetMACAddress char_signed fin MAC0AddressOffset in
        let cout := (cout ++ "MAC0=" ++ s ++ endl)%string in
        let '(s, fin) := GetMACAddress char_signed fin MAC1AddressOffset in
        let cout := (cout ++ "MAC1=" ++ s ++ endl)%string in
        fin <- fin_close fin ;;
        ret (fin, cout)
      else dump_eeproms char_signed fs rest fin cout
  end.

(** [DumpFRU]; the result is the standard output. *)
Definition DumpFRU (char_signed : bool) (fs : filesystem) (cout : string)
  : M string :=
  id <- GetServerId fs ;;
  let cout := (cout ++ "SERVER_ID=" ++ id ++ endl)%string in
  let cout :=
    (cout ++ "PRODUCT_MANUFACTURER=" ++ GetManufactuer ++ endl)%string in
  let fin := ifstream_new in
  r <- dump_eeproms char_signed fs eeproms fin cout ;;
  ret (snd r).

(** ** Definitions for the further statements *)

(** The labels [DumpFRU] prints, in the order of the properties that
    [AddFRUObjectToDbus] registers. *)
Definition dump_labels : list string :=
  [ "SERVER_ID"%string; "PRODUCT_MANUFACTURER"%string; "PartNumber"%string;
    "SerialNumber"%string; "PCAPartNumber"%string; "PCASerialNumber"%string;
    "MAC0"%string; "MAC1"%string ].

(** The lines [label=value], each ended by a newline. *)
Fixpoint dump_text (lines : list (string * string)) : string :=
  match lines with
  | [] => EmptyString
  | (label, value) :: rest =>
      (label ++ "=" ++ value ++ endl ++ dump_text rest)%string
  end.

(** What one scan does with files. *)
Definition call_io (fs : filesystem) : list io_event :=
  server_id_io fs ++ scan_io fs eeproms.

(** The snapshots the [ReScan] calls add to the log when the FRU handle
    is [h] before the first of them. *)
Fixpoint serve_snapshots (char_signed : bool) (calls : list filesystem)
  (h : handle) : list object_server :=
  match calls with
  | [] => []
  | fs :: calls' =>
      (mk_server [(0, manager_iface)] (S h)
         :: scan_snapshots char_signed fs [(0, manager_iface)] (S h))
      ++ serve_snapshots char_signed calls' (S h)
  end.

(** The number of files open after the file operations [l], starting
    with [n] open: [None] when a file is opened while one is open, or
    closed while none is. *)
Fixpoint open_files (l : list io_event) (n : nat) : option nat :=
  match l with
  | [] => Some n
  | IoOpen _ true :: rest => if Nat.eqb n 0 then open_files rest 1 else None
  | IoOpen _ false :: rest => open_files rest n
  | IoClose :: rest => if Nat.eqb n 1 then open_files rest 0 else None
  end.

Definition openable (fs : filesystem) (path : string) : bool :=
  match fs path with Some _ => true | None => false end.

(** The digit a hexadecimal character stands for. *)
Definition unhex_digit (c : ascii) : N :=
  let n := N_of_ascii c in
  if (97 <=? n)%N then (n - 87)%N else (n - 48)%N.

(** The byte two hexadecimal digits stand for. *)
Definition unhex2 (s : string) : option byte :=
  match s with
  | String hi (String lo EmptyString) =>
      Byte.of_N (16 * unhex_digit hi + unhex_digit lo)
  | _ => None
  end.

(** The six bytes a string of six colon-separated pairs of digits
    stands for. *)
Definition parse_mac (s : string) : option (list byte) :=
  match s with
  | String a0 (String a1 (String ":"
    (String b0 (String b1 (String ":"
    (String c0 (String c1 (String ":"
    (String d0 (String d1 (String ":"
    (String e0 (String e1 (String ":"
    (String f0 (String f1 EmptyString)))))))))))))))) =>
      match unhex2 (String a0 (String a1 EmptyString)),
            unhex2 (String b0 (String b1 EmptyString)),
            unhex2 (String c0 (String c1 EmptyString)),
            unhex2 (String d0 (String d1 EmptyString)),
            unhex2 (String e0 (String e1 EmptyString)),
            unhex2 (String f0 (String f1 EmptyString)) with
      | Some a, Some b, Some c, Some d, Some e, Some f => Some [a; b; c; d; e; f]
      | _, _, _, _, _, _ => None
      end
  | _ => None
  end.

(** Every initialized object at the FRU path has the properties of a
    whole scan of one of the file systems [fss]. *)
Definition fully_published (char_signed : bool) (fss : list filesystem)
  (srv : object_server) : Prop :=
  forall h i,
    In (h, i) (objects_at productName srv) ->
    if_initialized i = true ->
    exists fs, In fs fss /\ if_properties i = published_props char_signed fs.

(** * The record decoder *)

Example format_mac_spec_example :
  format_mac true (bytes_of [0; 26; 43; 60; 77; 94]%N) = "00:1a:2b:3c:4d:5e"%string
  /\ format_mac false (bytes_of [0; 26; 43; 60; 77; 94]%N) = "00:1a:2b:3c:4d:5e"%string.
Proof. split; reflexivity. Qed.

Example format_mac_high_bytes :
  format_mac true (bytes_of [255; 128; 1; 2; 3; 4]%N)
  = "ffffffff:ffffff80:01:02:03:04"%string
  /\ format_mac false (bytes_of [255; 128; 1; 2; 3; 4]%N)
     = "ff:80:01:02:03:04"%string.
Proof. split; vm_compute; reflexivity. Qed.

Lemma length_range bytes offset size :
  length (range bytes offset size) = Nat.min size (length bytes - offset).
Proof. unfold range. now rewrite length_firstn, length_skipn. Qed.

Lemma range_full bytes offset size :
  offset + size <= length bytes -> length (range bytes offset size) = size.
Proof. rewrite length_range. lia. Qed.

Lemma length_padded bytes offset size :
  length (padded bytes offset size) = size.
Proof.
  unfold padded, store.
  rewrite length_app, length_skipn, repeat_length, length_range. lia.
Qed.

Lemma padded_full bytes offset size :
  offset + size <= length bytes ->
  padded bytes offset size = range bytes offset size.
Proof.
  intros H. unfold padded, store.
  rewrite (range_full _ _ _ H), skipn_all2 by (rewrite repeat_length; lia).
  apply app_nil_r.
Qed.

Lemma nth_repeat_x00 n i : nth i (repeat x00 n) x00 = x00.
Proof.
  revert i. induction n as [|n IH]; intros [|i]; simpl; auto.
Qed.

(** Byte [i] of the buffer is byte [offset + i] of the file when the file
    has it, and the zero byte the buffer was created with when not. *)
Lemma nth_padded bytes offset size i :
  i < size ->
  nth i (padded bytes offset size) x00 =
  if Nat.ltb (offset + i) (length bytes) then nth (offset + i) bytes x00
  else x00.
Proof.
  intros Hi. unfold padded, store.
  destruct (Nat.ltb_spec (offset + i) (length bytes)) as [Hlt | Hge].
  - rewrite app_nth1 by (rewrite length_range; lia).
    unfold range. rewrite nth_firstn.
    destruct (Nat.ltb_spec i size); [| lia].
    now rewrite nth_skipn.
  - rewrite app_nth2 by (rewrite length_range; lia).
    rewrite nth_skipn. apply nth_repeat_x00.
Qed.

Lemma GetStr_failed fin offset size :
  failbit fin = true -> GetStr fin offset size = (unknown, fin).
Proof. intros H. unfold GetStr, fail. now rewrite H. Qed.

Lemma GetStr_ok bytes fin offset size :
  on_file bytes fin -> failbit fin = false ->
  GetStr fin offset size =
  (string_of_list_byte (padded bytes offset size),
   let short := Nat.ltb (length (range bytes offset size)) size in
   mk_ifstream (Some bytes) (offset + length (range bytes offset size))
               short short).
Proof.
  intros Hf Hok. unfold GetStr, fail, seekg, read, good, on_file in *.
  rewrite Hok, Hf. simpl. reflexivity.
Qed.

Lemma mac_buffer_failed fin offset :
  failbit fin = true -> mac_buffer fin offset = (repeat x00 MACAddressSize, fin).
Proof. intros H. unfold mac_buffer, fail. now rewrite H. Qed.

Lemma mac_buffer_ok bytes fin offset :
  on_file bytes fin -> failbit fin = false ->
  mac_buffer fin offset =
  (padded bytes offset MACAddressSize,
   let short := Nat.ltb (length (range bytes offset MACAddressSize))
                        MACAddressSize in
   mk_ifstream (Some bytes)
               (offset + length (range bytes offset MACAddressSize))
               short short).
Proof.
  intros Hf Hok. unfold mac_buffer, fail, seekg, read, good, on_file in *.
  rewrite Hok, Hf. simpl. reflexivity.
Qed.

Lemma format_mac_zero char_signed :
  format_mac char_signed (repeat x00 MACAddressSize) = zero_mac.
Proof. destruct char_signed; reflexivity. Qed.

Lemma GetMACAddress_failed char_signed fin offset :
  failbit fin = true ->
  GetMACAddress char_signed fin offset = (zero_mac, fin).
Proof.
  intros H. unfold GetMACAddress. rewrite (mac_buffer_failed _ _ H).
  now rewrite format_mac_zero.
Qed.

Lemma GetMACAddress_ok char_signed bytes fin offset :
  on_file bytes fin -> failbit fin = false ->
  GetMACAddress char_signed fin offset =
  (format_mac char_signed (padded bytes offset MACAddressSize),
   let short := Nat.ltb (length (range bytes offset MACAddressSize))
                        MACAddressSize in
   mk_ifstream (Some bytes)
               (offset + length (range bytes offset MACAddressSize))
               short short).
Proof.
  intros Hf Hok. unfold GetMACAddress.
  now rewrite (mac_buffer_ok _ _ _ Hf Hok).
Qed.

Lemma short_range bytes offset size :
  Nat.ltb (length (range bytes offset size)) size = short bytes offset size.
Proof.
  unfold short. rewrite length_range.
  destruct (Nat.ltb_spec (Nat.min size (length bytes - offset)) size);
    destruct (Nat.ltb_spec (length bytes - offset) size); auto; lia.
Qed.

Lemma short_true bytes offset size :
  length bytes < offset + size -> 0 < size -> short bytes offset size = true.
Proof. intros. unfold short. apply Nat.ltb_lt. lia. Qed.

Lemma short_false bytes offset size :
  offset + size <= length bytes -> short bytes offset size = false.
Proof. intros. unfold short. apply Nat.ltb_ge. lia. Qed.

Lemma GetStr_step bytes fin offset size :
  on_file bytes fin ->
  exists fin',
    GetStr fin offset size =
    (if failbit fin then unknown
     else string_of_list_byte (padded bytes offset size), fin')
    /\ on_file bytes fin'
    /\ failbit fin' = failbit fin || short bytes offset size.
Proof.
  intros Hf. destruct (failbit fin) eqn:Hfail.
  - exists fin. rewrite (GetStr_failed _ _ _ Hfail). auto.
  - rewrite (GetStr_ok _ _ _ _ Hf Hfail). eexists. split; [reflexivity |].
    split; [reflexivity |]. simpl. apply short_range.
Qed.

Lemma GetMACAddress_step char_signed bytes fin offset :
  on_file bytes fin ->
  exists fin',
    GetMACAddress char_signed fin offset =
    (format_mac char_signed
       (if failbit fin then repeat x00 MACAddressSize
        else padded bytes offset MACAddressSize), fin')
    /\ on_file bytes fin'
    /\ failbit fin' = failbit fin || short bytes offset MACAddressSize.
Proof.
  intros Hf. destruct (failbit fin) eqn:Hfail.
  - exists fin. rewrite (GetMACAddress_failed _ _ _ Hfail), format_mac_zero. auto.
  - rewrite (GetMACAddress_ok _ _ _ _ Hf Hfail). eexists. split; [reflexivity |].
    split; [reflexivity |]. simpl. apply short_range.
Qed.

Lemma decode_decoded char_signed bytes fin :
  on_file bytes fin -> failbit fin = false ->
  exists fin',
    decode char_signed fin = (decoded char_signed bytes, fin')
    /\ on_file bytes fin'.
Proof.
  intros Hf Hok. unfold decode.
  destruct (GetStr_step bytes fin PartNumberOffset PartNumberSize Hf)
    as (fin1 & -> & Hf1 & Hb1).
  destruct (GetStr_step bytes fin1 SerialNumberOffset SerialNumberSize Hf1)
    as (fin2 & -> & Hf2 & Hb2).
  destruct (GetStr_step bytes fin2 PcaPartNumberOffset PcaPartNumberSize Hf2)
    as (fin3 & -> & Hf3 & Hb3).
  destruct (GetStr_step bytes fin3 PcaSerialNumberOffset PcaSerialNumberSize Hf3)
    as (fin4 & -> & Hf4 & Hb4).
  destruct (GetMACAddress_step char_signed bytes fin4 MAC0AddressOffset Hf4)
    as (fin5 & -> & Hf5 & Hb5).
  destruct (GetMACAddress_step char_signed bytes fin5 MAC1AddressOffset Hf5)
    as (fin6 & -> & Hf6 & Hb6).
  exists fin6. split; [| exact Hf6].
  rewrite Hb5, Hb4, Hb3, Hb2, Hb1, Hok. reflexivity.
Qed.

Lemma decode_opened char_signed bytes :
  fst (decode char_signed (opened bytes)) = decoded char_signed bytes.
Proof.
  destruct (decode_decoded char_signed bytes (opened bytes)) as (fin' & -> & _);
    reflexivity.
Qed.

(** ** The layout of the fields *)

Lemma decoded_layout char_signed bytes :
  176 <= length bytes -> decoded char_signed bytes = layout_fields char_signed bytes.
Proof.
  intros H. unfold decoded, layout_fields.
  unfold PartNumberOffset, PartNumberSize, SerialNumberOffset, SerialNumberSize,
    PcaPartNumberOffset, PcaPartNumberSize, PcaSerialNumberOffset,
    PcaSerialNumberSize, MAC0AddressOffset, MAC1AddressOffset, MACAddressSize.
  rewrite !short_false by lia. simpl orb. cbv iota.
  rewrite !padded_full by lia. reflexivity.
Qed.

Lemma length_string_of_list_byte l :
  String.length (string_of_list_byte l) = length l.
Proof.
  unfold string_of_list_byte. induction l as [|b l IH]; simpl; auto.
Qed.

(** C1, as stated, fails: in a source of 166 bytes the read of the PCA
    part number at offset 160 comes up short, the stream fails, and the
    three fields read after it are not the bytes of their ranges. *)
Lemma decode_166_bytes_not_layout :
  166 <= length (repeat x41 166)
  /\ fst (decode false (opened (repeat x41 166)))
     <> layout_fields false (repeat x41 166)
  /\ pca_serial_number (fst (decode false (opened (repeat x41 166)))) = unknown
  /\ string_of_list_byte (range (repeat x41 166) 144 16)
     = "AAAAAAAAAAAAAAAA"%string.
Proof.
  split; [simpl; lia |]. split; [| split; vm_compute; reflexivity].
  intros H. apply (f_equal pca_serial_number) in H.
  vm_compute in H. discriminate H.
Qed.

(** C1, amended: for every byte source of at least 176 bytes the decoder
    gives each of the six fields as the byte range of the layout table,
    and each text field is the verbatim bytes of its range, 16 characters
    with nothing trimmed. *)
Theorem decode_layout (char_signed : bool) (bytes : list byte) :
  176 <= length bytes ->
  let f := fst (decode char_signed (opened bytes)) in
  f = layout_fields char_signed bytes
  /\ list_byte_of_string (serial_number f) = range bytes 1 16
  /\ list_byte_of_string (part_number f) = range bytes 109 16
  /\ list_byte_of_string (pca_serial_number f) = range bytes 144 16
  /\ list_byte_of_string (pca_part_number f) = range bytes 160 16
  /\ String.length (serial_number f) = 16
  /\ String.length (part_number f) = 16
  /\ String.length (pca_serial_number f) = 16
  /\ String.length (pca_part_number f) = 16
  /\ mac0 f = format_mac char_signed (range bytes 132 6)
  /\ mac1 f = format_mac char_signed (range bytes 138 6).
Proof.
  intros H f. subst f. rewrite decode_opened, (decoded_layout _ _ H).
  unfold layout_fields. simpl.
  rewrite !list_byte_of_string_of_list_byte, !length_string_of_list_byte.
  rewrite !range_full by lia. repeat split; reflexivity.
Qed.

Lemma decode_layout_witness :
  176 <= length (repeat x41 176)
  /\ fst (decode false (opened (repeat x41 176)))
     = layout_fields false (repeat x41 176).
Proof.
  split; [simpl; lia |].
  apply (decode_layout false (repeat x41 176)). simpl; lia.
Defined.

(** ** The MAC formatter *)

Lemma put_int_unsigned b : put_int 2 (int_of_char false b) = hex2 b.
Proof. destruct b; reflexivity. Qed.

Lemma put_int_signed_low b :
  high_bit b = false -> put_int 2 (int_of_char true b) = hex2 b.
Proof. destruct b; intros H; try discriminate H; reflexivity. Qed.

(** On a signed [char] a byte with its high bit set is sign-extended by
    the cast and printed with eight digits. *)
Lemma put_int_signed_high b :
  high_bit b = true ->
  put_int 2 (int_of_char true b) = ("ffffff" ++ hex2 b)%string.
Proof. destruct b; intros H; try discriminate H; reflexivity. Qed.

Lemma format_mac_six char_signed b0 b1 b2 b3 b4 b5 :
  let p b := put_int 2 (int_of_char char_signed b) in
  format_mac char_signed [b0; b1; b2; b3; b4; b5] =
  (((((p b0 ++ ":" ++ p b1) ++ ":" ++ p b2) ++ ":" ++ p b3)
      ++ ":" ++ p b4) ++ ":" ++ p b5)%string.
Proof. reflexivity. Qed.

(** Where plain [char] is unsigned, or no byte has its high bit set, the
    six bytes are printed with two digits each and colons between them. *)
Lemma format_mac_two_digits char_signed b0 b1 b2 b3 b4 b5 :
  char_signed = false
  \/ forallb (fun b => negb (high_bit b)) [b0; b1; b2; b3; b4; b5] = true ->
  format_mac char_signed [b0; b1; b2; b3; b4; b5] =
  (hex2 b0 ++ ":" ++ hex2 b1 ++ ":" ++ hex2 b2 ++ ":" ++ hex2 b3
     ++ ":" ++ hex2 b4 ++ ":" ++ hex2 b5)%string
  /\ String.length (format_mac char_signed [b0; b1; b2; b3; b4; b5]) = 17.
Proof.
  intros H. rewrite format_mac_six. cbv zeta.
  assert (Hp : forall b, In b [b0; b1; b2; b3; b4; b5] ->
                         put_int 2 (int_of_char char_signed b) = hex2 b).
  { intros b Hb. destruct H as [-> | H]; [apply put_int_unsigned |].
    destruct char_signed; [| apply put_int_unsigned].
    apply put_int_signed_low. rewrite forallb_forall in H.
    specialize (H b Hb). now destruct (high_bit b). }
  rewrite !Hp by (simpl; tauto). split; reflexivity.
Qed.

(** C4, at the failing input: built with a signed plain [char], the
    bytes ff 80 01 02 03 04 are not printed with two digits each; the
    string has 29 characters, not 17.  The bytes of the example of the
    spec are printed as it says with either kind of [char]. *)
Theorem GetMACAddress_signed_char_high_bytes :
  fst (GetMACAddress true (opened (bytes_of [255; 128; 1; 2; 3; 4]%N)) 0)
  = "ffffffff:ffffff80:01:02:03:04"%string
  /\ String.length
       (fst (GetMACAddress true (opened (bytes_of [255; 128; 1; 2; 3; 4]%N)) 0))
     = 29
  /\ fst (GetMACAddress false (opened (bytes_of [255; 128; 1; 2; 3; 4]%N)) 0)
     = "ff:80:01:02:03:04"%string
  /\ fst (GetMACAddress true (opened (bytes_of [0; 26; 43; 60; 77; 94]%N)) 0)
     = "00:1a:2b:3c:4d:5e"%string
  /\ fst (GetMACAddress false (opened (bytes_of [0; 26; 43; 60; 77; 94]%N)) 0)
     = "00:1a:2b:3c:4d:5e"%string.
Proof. repeat split; vm_compute; reflexivity. Qed.

(** ** Short sources *)

Lemma nth_padded_any bytes offset size i :
  nth i (padded bytes offset size) x00 =
  if Nat.ltb i size && Nat.ltb (offset + i) (length bytes)
  then nth (offset + i) bytes x00 else x00.
Proof.
  destruct (Nat.ltb_spec i size) as [Hi | Hi]; simpl.
  - now apply nth_padded.
  - apply nth_overflow. rewrite length_padded. lia.
Qed.

(** C7: for every byte source, of any length, the decoder returns a
    complete record and leaves the stream on the same file.  Every text
    field is the sentinel or a buffer of 16 bytes, every MAC field the
    formatted buffer of 6 bytes, zero or read; and byte [i] of a buffer
    that was read is byte [offset + i] of the source where the source has
    it and the zero byte the buffer was created with where not: nothing
    past the end of the source is used. *)
Theorem decode_total (char_signed : bool) (bytes : list byte) :
  exists f fin',
    decode char_signed (opened bytes) = (f, fin')
    /\ on_file bytes fin'
    /\ part_number f = string_of_list_byte (padded bytes 109 16)
    /\ text_field_defined bytes 1 (serial_number f)
    /\ text_field_defined bytes 160 (pca_part_number f)
    /\ text_field_defined bytes 144 (pca_serial_number f)
    /\ mac_field_defined char_signed bytes 132 (mac0 f)
    /\ mac_field_defined char_signed bytes 138 (mac1 f)
    /\ forall offset size,
         length (padded bytes offset size) = size
         /\ forall i,
              nth i (padded bytes offset size) x00 =
              if Nat.ltb i size && Nat.ltb (offset + i) (length bytes)
              then nth (offset + i) bytes x00 else x00.
Proof.
  destruct (decode_decoded char_signed bytes (opened bytes))
    as (fin' & Hd & Hf); [reflexivity | reflexivity |].
  exists (decoded char_signed bytes), fin'.
  split; [exact Hd |]. split; [exact Hf |].
  unfold decoded, text_field_defined, mac_field_defined. simpl.
  split; [reflexivity |].
  repeat match goal with
         | |- context [if ?b then _ else _] => destruct b
         end;
    rewrite ?format_mac_zero;
    repeat split; auto using length_padded, nth_padded_any.
Qed.

(** ** The decoder is a function of the bytes *)

Lemma open_opened fs path fin bytes :
  is_open fin = false -> fs path = Some bytes -> open fs path fin = opened bytes.
Proof.
  unfold is_open, open. destruct (rdbuf fin); [discriminate |].
  now intros _ ->.
Qed.

(** C9: two streams that open byte sources with the same contents, at
    whatever paths, in whatever file systems and whatever the streams
    went through before, give the same six fields, and these are a
    function of the bytes alone (on one platform). *)
Theorem decode_deterministic (char_signed : bool) (fs1 fs2 : filesystem)
  (path1 path2 : string) (fin1 fin2 : ifstream) (bytes1 bytes2 : list byte) :
  is_open fin1 = false -> is_open fin2 = false ->
  fs1 path1 = Some bytes1 -> fs2 path2 = Some bytes2 ->
  bytes1 = bytes2 ->
  fst (decode char_signed (open fs1 path1 fin1))
  = fst (decode char_signed (open fs2 path2 fin2))
  /\ fst (decode char_signed (open fs1 path1 fin1)) = decoded char_signed bytes1.
Proof.
  intros H1 H2 Hb1 Hb2 <-.
  rewrite (open_opened _ _ _ _ H1 Hb1), (open_opened _ _ _ _ H2 Hb2).
  now rewrite decode_opened.
Qed.

Lemma decode_deterministic_witness :
  fst (decode false
         (open (fs_of [("a"%string, repeat x41 176)]) "a" ifstream_new))
  = fst (decode false
           (open (fs_of [("b"%string, repeat x41 176)]) "b"
                 (setstate_fail ifstream_new))).
Proof.
  apply (decode_deterministic false
           (fs_of [("a"%string, repeat x41 176)])
           (fs_of [("b"%string, repeat x41 176)])
           "a" "b" ifstream_new (setstate_fail ifstream_new)
           (repeat x41 176) (repeat x41 176));
    reflexivity.
Defined.

(** ** A failed read *)

Lemma GetStr_short_fails bytes fin offset size :
  on_file bytes fin -> failbit fin = false ->
  length bytes < offset + size -> 0 < size ->
  failbit (snd (GetStr fin offset size)) = true.
Proof.
  intros Hf Hok Hlen Hsize. rewrite (GetStr_ok _ _ _ _ Hf Hok). simpl.
  rewrite short_range. now apply short_true.
Qed.

(** C10: when the read of one field comes up short, the source ending
    before the end of its range, every field read after it in the same
    scan is what a failed stream gives, [unknown] for a text field and
    the zero MAC for a MAC field, whatever bytes the source has at their
    ranges. *)
Theorem failed_read_persists (char_signed : bool) (bytes : list byte)
  (k j offset size : nat) :
  nth_error extraction_order k = Some (offset, size) ->
  length bytes < offset + size ->
  k < j -> j < 6 ->
  nth j (field_values (fst (decode char_signed (opened bytes)))) EmptyString
  = after_failure j.
Proof.
  intros Hk Hlen Hkj Hj. rewrite decode_opened.
  cbv [extraction_order PartNumberOffset PartNumberSize SerialNumberOffset
       SerialNumberSize PcaPartNumberOffset PcaPartNumberSize
       PcaSerialNumberOffset PcaSerialNumberSize MAC0AddressOffset
       MAC1AddressOffset MACAddressSize] in Hk.
  assert (Hs : 0 < size -> short bytes offset size = true)
    by (intros; now apply short_true).
  unfold decoded, field_values.
  cbv [PartNumberOffset PartNumberSize SerialNumberOffset
       SerialNumberSize PcaPartNumberOffset PcaPartNumberSize
       PcaSerialNumberOffset PcaSerialNumberSize MAC0AddressOffset
       MAC1AddressOffset MACAddressSize].
  cbv zeta.
  destruct k as [|[|[|[|[|[|[|k]]]]]]]; cbn in Hk; try discriminate Hk;
    injection Hk as <- <-; try rewrite Hs by lia;
    destruct j as [|[|[|[|[|[|j]]]]]]; try lia;
    cbn [nth]; rewrite ?orb_true_r, ?orb_true_l; cbv iota;
    (reflexivity || apply (format_mac_zero char_signed)).
Qed.

Lemma failed_read_persists_witness :
  nth_error extraction_order 2 = Some (160, 16)
  /\ length (repeat x41 166) < 160 + 16
  /\ nth 3 (field_values (fst (decode false (opened (repeat x41 166)))))
         EmptyString
     = after_failure 3.
Proof.
  split; [reflexivity |]. split; [simpl; lia |].
  apply (failed_read_persists false (repeat x41 166) 2 3 160 16);
    [reflexivity | simpl; lia | lia | lia].
Defined.

(** The order of the reads shows: the serial number at offset 1 is all
    there in a source of 50 bytes, and read first it is returned; read
    after the part number at offset 109, as [decode] does, it is
    [unknown]. *)
Lemma serial_number_depends_on_order :
  fst (GetStr (opened (repeat x41 50)) SerialNumberOffset SerialNumberSize)
  = "AAAAAAAAAAAAAAAA"%string
  /\ serial_number (fst (decode false (opened (repeat x41 50)))) = unknown.
Proof. split; vm_compute; reflexivity. Qed.

(** * The server identifier *)

Lemma GetServerId_run fs w :
  GetServerId fs w =
  (server_id fs,
   mk_world (objServer w) (bus_log w) (io_log w ++ server_id_io fs)).
Proof.
  unfold server_id, server_id_io, GetServerId, fin_open, fin_close, bind,
    log_io, ret, open, fail, getline, good. simpl.
  destruct (fs server_id_path) as [bytes |]; simpl.
  - destruct (line_of bytes) as [l [|]]; simpl;
      now rewrite <- app_assoc.
  - reflexivity.
Qed.

Lemma line_of_no_newline line :
  ~ In x0a line -> line_of line = (line, false).
Proof.
  induction line as [|b line IH]; intros H; simpl; [reflexivity |].
  destruct (Byte.eqb b x0a) eqn:E.
  - apply Byte.byte_dec_bl in E. exfalso. apply H. now left.
  - rewrite IH; [reflexivity |]. intros Hin. apply H. now right.
Qed.

Lemma line_of_newline line rest :
  ~ In x0a line -> line_of (line ++ x0a :: rest) = (line, true).
Proof.
  induction line as [|b line IH]; intros H; simpl; [reflexivity |].
  destruct (Byte.eqb b x0a) eqn:E.
  - apply Byte.byte_dec_bl in E. exfalso. apply H. now left.
  - rewrite IH; [reflexivity |]. intros Hin. apply H. now right.
Qed.

Lemma server_id_value fs :
  server_id fs =
  match fs server_id_path with
  | None => unknown
  | Some bytes => string_of_list_byte (fst (line_of bytes))
  end.
Proof.
  unfold server_id, GetServerId, fin_open, fin_close, bind, log_io, ret, open,
    fail, getline, good. simpl.
  destruct (fs server_id_path) as [bytes |]; simpl; [| reflexivity].
  destruct (line_of bytes) as [l [|]]; reflexivity.
Qed.

(** C6, as stated, fails: the identity file opens and is empty, the read
    of the line fails (the stream has [failbit] after [getline]), and the
    result is the empty string, not the sentinel. *)
Lemma GetServerId_empty_file :
  is_open (open (fs_of [(server_id_path, [])]) server_id_path ifstream_new)
  = true
  /\ fail (snd (getline
                  (open (fs_of [(server_id_path, [])]) server_id_path
                        ifstream_new) EmptyString)) = true
  /\ fst (GetServerId (fs_of [(server_id_path, [])]) world0) = EmptyString
  /\ fst (GetServerId (fs_of [(server_id_path, [])]) world0) <> unknown.
Proof. repeat split; try reflexivity. vm_compute. discriminate. Qed.

(** C6, amended: when the identity file cannot be opened the result is
    the sentinel; when it opens the result is its first line, the bytes
    before the first newline or before the end of the file, without the
    newline (so the empty string for a file with nothing to read). *)
Theorem GetServerId_result (fs : filesystem) (w : world)
  (line rest : list byte) :
  ~ In x0a line ->
  (fs server_id_path = None -> fst (GetServerId fs w) = unknown)
  /\ (fs server_id_path = Some line ->
      fst (GetServerId fs w) = string_of_list_byte line)
  /\ (fs server_id_path = Some (line ++ x0a :: rest) ->
      fst (GetServerId fs w) = string_of_list_byte line).
Proof.
  intros Hline. rewrite GetServerId_run. cbn [fst]. rewrite server_id_value.
  repeat split; intros ->.
  - reflexivity.
  - now rewrite line_of_no_newline.
  - now rewrite line_of_newline.
Qed.

Lemma GetServerId_result_witness :
  fst (GetServerId
         (fs_of [(server_id_path, list_byte_of_string "SN123" ++ [x0a])])
         world0)
  = "SN123"%string
  /\ fst (GetServerId (fs_of []) world0) = "Unknown"%string.
Proof.
  assert (H : ~ In x0a (list_byte_of_string "SN123")).
  { simpl. intros [H | [H | [H | [H | [H | []]]]]]; discriminate H. }
  split.
  - apply (GetServerId_result
             (fs_of [(server_id_path, list_byte_of_string "SN123" ++ [x0a])])
             world0 (list_byte_of_string "SN123") [] H).
    reflexivity.
  - apply (GetServerId_result (fs_of []) world0
             (list_byte_of_string "SN123") [] H).
    reflexivity.
Defined.

(** * The object server *)

Lemma modify_iface_last h f l i n :
  fresh h l ->
  modify_iface h f (mk_server (l ++ [(h, i)]) n) = mk_server (l ++ [(h, f i)]) n.
Proof.
  intros Hl. unfold modify_iface. cbn [interfaces_ next_handle].
  rewrite map_app. cbn [map fst snd]. rewrite Nat.eqb_refl. f_equal. f_equal.
  induction Hl as [| e l He _ IH]; [reflexivity |]. cbn [map].
  apply Nat.eqb_neq in He. rewrite He. now f_equal.
Qed.

Lemma update_iface_run h f l i n bl il :
  fresh h l ->
  update_server (modify_iface h f) (mk_world (mk_server (l ++ [(h, i)]) n) bl il)
  = (tt, mk_world (mk_server (l ++ [(h, f i)]) n)
                  (bl ++ [mk_server (l ++ [(h, f i)]) n]) il).
Proof.
  intros Hl. unfold update_server. cbn [objServer bus_log io_log].
  now rewrite (modify_iface_last _ _ _ _ _ Hl).
Qed.

Lemma register_property_run h name value l n props bl il :
  fresh h l ->
  has_property name (fru_iface props false) = false ->
  register_property h name value (mk_world (with_fru l h n props false) bl il)
  = (tt, mk_world (with_fru l h n (props ++ [(name, value)]) false)
                  (bl ++ [with_fru l h n (props ++ [(name, value)]) false]) il).
Proof.
  intros Hl Hp. unfold register_property, with_fru.
  rewrite (update_iface_run _ _ _ _ _ _ _ Hl).
  unfold add_property. rewrite Hp. reflexivity.
Qed.

Lemma initialize_run h l n props bl il :
  fresh h l ->
  initialize h (mk_world (with_fru l h n props false) bl il)
  = (tt, mk_world (with_fru l h n props true)
                  (bl ++ [with_fru l h n props true]) il).
Proof.
  intros Hl. unfold initialize, with_fru.
  now rewrite (update_iface_run _ _ _ _ _ _ _ Hl).
Qed.

Lemma fin_open_run fs path fin w :
  fin_open fs path fin w =
  (open fs path fin,
   mk_world (objServer w) (bus_log w)
            (io_log w ++ [IoOpen path (negb (fail (open fs path fin)))])).
Proof. reflexivity. Qed.

Lemma fin_close_run fin w :
  fin_close fin w =
  (close fin, mk_world (objServer w) (bus_log w) (io_log w ++ [IoClose])).
Proof. reflexivity. Qed.

Lemma bind_run {A B : Type} (m : M A) (k : A -> M B) w a w' :
  m w = (a, w') -> bind m k w = k a w'.
Proof. intros H. unfold bind. now rewrite H. Qed.

(** One [register_property] on the FRU interface under construction. *)
Ltac step_register Hl :=
  erewrite bind_run
    by (apply register_property_run; [exact Hl | reflexivity]).

Lemma scan_eeproms_found char_signed fs h bytes p rest fin l n sid bl il :
  is_open fin = false -> fs p = Some bytes -> fresh h l ->
  exists fin',
    scan_eeproms char_signed fs h (p :: rest) fin
      (mk_world (with_fru l h n (base_props sid) false) bl il)
    = (fin',
       mk_world
         (with_fru l h n
            (base_props sid ++ fields_props (decoded char_signed bytes)) false)
         (bl ++ map (fun ps => with_fru l h n (base_props sid ++ ps) false)
                    (tl (prefixes (fields_props (decoded char_signed bytes)))))
         (il ++ [IoOpen p true; IoClose]))
    /\ is_open fin' = false.
Proof.
  intros Hfin Hp Hl. cbn [scan_eeproms].
  rewrite (bind_run _ _ _ _ _ (fin_open_run _ _ _ _)).
  rewrite (open_opened _ _ _ _ Hfin Hp). cbn [is_open opened rdbuf].
  cbn [objServer bus_log io_log fail failbit negb].
  assert (Hf0 : on_file bytes (opened bytes)) by reflexivity.
  destruct (GetStr_step bytes _ PartNumberOffset PartNumberSize Hf0)
    as (fin1 & -> & Hf1 & Hb1).
  step_register Hl.
  destruct (GetStr_step bytes fin1 SerialNumberOffset SerialNumberSize Hf1)
    as (fin2 & -> & Hf2 & Hb2).
  step_register Hl.
  destruct (GetStr_step bytes fin2 PcaPartNumberOffset PcaPartNumberSize Hf2)
    as (fin3 & -> & Hf3 & Hb3).
  step_register Hl.
  destruct (GetStr_step bytes fin3 PcaSerialNumberOffset PcaSerialNumberSize Hf3)
    as (fin4 & -> & Hf4 & Hb4).
  step_register Hl.
  destruct (GetMACAddress_step char_signed bytes fin4 MAC0AddressOffset Hf4)
    as (fin5 & -> & Hf5 & Hb5).
  step_register Hl.
  destruct (GetMACAddress_step char_signed bytes fin5 MAC1AddressOffset Hf5)
    as (fin6 & -> & Hf6 & Hb6).
  step_register Hl.
  rewrite fin_close_run. cbn [objServer bus_log io_log].
  exists (close fin6). split.
  - rewrite Hb5, Hb4, Hb3, Hb2, Hb1. cbn [opened failbit orb].
    unfold base_props, fields_props, decoded, prefixes.
    cbn [app length seq map firstn tl part_number serial_number
         pca_part_number pca_serial_number mac0 mac1].
    rewrite <- !app_assoc. reflexivity.
  - unfold close, is_open. unfold on_file in Hf6. now rewrite Hf6.
Qed.

Lemma scan_eeproms_run char_signed fs h paths :
  forall fin l n sid bl il,
    is_open fin = false -> fresh h l ->
    exists fin',
      scan_eeproms char_signed fs h paths fin
        (mk_world (with_fru l h n (base_props sid) false) bl il)
      = (fin',
         mk_world
           (with_fru l h n
              (base_props sid ++ scanned_props char_signed fs paths) false)
           (bl ++ map (fun ps => with_fru l h n (base_props sid ++ ps) false)
                      (tl (prefixes (scanned_props char_signed fs paths))))
           (il ++ scan_io fs paths))
      /\ is_open fin' = false.
Proof.
  induction paths as [| p rest IH]; intros fin l n sid bl il Hfin Hl.
  - exists fin. split; [| exact Hfin].
    cbn. now rewrite !app_nil_r.
  - destruct (fs p) as [bytes |] eqn:Hp.
    + unfold scanned_props. cbn [first_open scan_io]. rewrite Hp.
      now apply scan_eeproms_found.
    + cbn [scan_eeproms].
      rewrite (bind_run _ _ _ _ _ (fin_open_run _ _ _ _)).
      assert (Hopen : open fs p fin = setstate_fail fin).
      { unfold open, is_open in *. destruct (rdbuf fin); [discriminate |].
        now rewrite Hp. }
      rewrite Hopen.
      assert (Hfin' : is_open (setstate_fail fin) = false) by exact Hfin.
      rewrite Hfin'. cbn [objServer bus_log io_log fail failbit setstate_fail negb].
      destruct (IH (setstate_fail fin) l n sid bl (il ++ [IoOpen p false])
                   Hfin' Hl) as (fin' & Hrun & Hclosed).
      exists fin'. split; [| exact Hclosed].
      rewrite Hrun. unfold scanned_props. cbn [first_open scan_io]. rewrite Hp.
      now rewrite <- app_assoc.
Qed.

Lemma prefixes_cons {A : Type} (a : A) (l : list A) :
  prefixes (a :: l) = [] :: map (cons a) (prefixes l).
Proof.
  unfold prefixes. cbn [length seq map firstn]. f_equal.
  rewrite <- seq_shift, !map_map. reflexivity.
Qed.

Lemma prefixes_head {A : Type} (l : list A) :
  prefixes l = [] :: tl (prefixes l).
Proof. destruct l; reflexivity. Qed.

Lemma prefixes_base sid (l : list (string * string)) :
  prefixes (base_props sid ++ l) =
  [] :: [("SERVER_ID"%string, sid)]
     :: map (app (base_props sid)) (prefixes l).
Proof.
  unfold base_props. cbn [app]. rewrite !prefixes_cons. cbn [map].
  now rewrite map_map.
Qed.

Lemma add_interface_fru_run l n bl il :
  add_interface productName "xyz.openbmc_project.FruDevice"
    (mk_world (mk_server l n) bl il)
  = (n, mk_world (with_fru l n (S n) [] false)
                 (bl ++ [with_fru l n (S n) [] false]) il).
Proof. reflexivity. Qed.

(** What a scan does to a world in which the next handle is fresh. *)
Lemma AddFRUObjectToDbus_run char_signed fs iface l n bl il :
  fresh n l ->
  AddFRUObjectToDbus char_signed fs iface (mk_world (mk_server l n) bl il)
  = (Some n,
     mk_world
       (with_fru l n (S n) (published_props char_signed fs) true)
       (bl ++ map (fun ps => with_fru l n (S n) ps false)
                  (prefixes (published_props char_signed fs))
           ++ [with_fru l n (S n) (published_props char_signed fs) true])
       (il ++ server_id_io fs ++ scan_io fs eeproms)).
Proof.
  intros Hl. unfold AddFRUObjectToDbus.
  rewrite (bind_run _ _ _ _ _ (add_interface_fru_run _ _ _ _)).
  rewrite (bind_run _ _ _ _ _ (GetServerId_run _ _)).
  cbn [objServer bus_log io_log].
  step_register Hl. step_register Hl.
  cbn [app].
  match goal with
  | |- context [bind (scan_eeproms _ _ _ _ _) _ (mk_world _ ?bl' ?il')] =>
      destruct (scan_eeproms_run char_signed fs n eeproms ifstream_new l (S n)
                  (server_id fs) bl' il' eq_refl Hl) as (fin' & Hrun & _)
  end.
  erewrite bind_run by exact Hrun.
  erewrite bind_run by (apply initialize_run; exact Hl).
  unfold ret, published_props. f_equal. f_equal.
  - remember (tl (prefixes (scanned_props char_signed fs eeproms))) as T eqn:HT.
    rewrite prefixes_base, (prefixes_head (scanned_props _ _ _)), <- HT.
    cbn [map]. rewrite map_map, <- !app_assoc. reflexivity.
  - now rewrite <- app_assoc.
Qed.

(** ** The states of a run *)

Lemma steady_fru_count srv :
  steady srv -> length (objects_at productName srv) <= 1.
Proof.
  intros [H | (h & props & init & _ & H)]; unfold objects_at; rewrite H;
    cbn; lia.
Qed.

Lemma steady_manager srv :
  steady srv ->
  find_iface 0 srv = Some manager_iface
  /\ objects_at managerPath srv = [(0, manager_iface)].
Proof.
  intros [H | (h & props & init & _ & H)];
    unfold find_iface, objects_at; rewrite H; cbn; auto.
Qed.

Lemma fresh_manager n : 0 < n -> fresh n [(0, manager_iface)].
Proof. intros H. constructor; [cbn; lia | constructor]. Qed.

Lemma steady_scan_snapshots char_signed fs n :
  0 < n -> Forall steady (scan_snapshots char_signed fs [(0, manager_iface)] n).
Proof.
  intros Hn. unfold scan_snapshots. apply Forall_app. split.
  - apply Forall_map, Forall_forall. intros ps _. right.
    now exists n, ps, false.
  - constructor; [| constructor]. right.
    now exists n, (published_props char_signed fs), true.
Qed.

Lemma rescanBus_unpublished_run char_signed fs n bl il :
  0 < n ->
  rescanBus char_signed fs None (mk_world (mk_server [(0, manager_iface)] n) bl il)
  = (Some n,
     mk_world
       (with_fru [(0, manager_iface)] n (S n) (published_props char_signed fs) true)
       (bl ++ scan_snapshots char_signed fs [(0, manager_iface)] n)
       (il ++ server_id_io fs ++ scan_io fs eeproms)).
Proof.
  intros Hn. unfold rescanBus, ret. unfold bind at 1.
  now rewrite (AddFRUObjectToDbus_run _ _ _ _ _ _ _ (fresh_manager n Hn)).
Qed.

Lemma rescanBus_published_run char_signed fs h props bl il :
  0 < h ->
  rescanBus char_signed fs (Some h)
    (mk_world (with_fru [(0, manager_iface)] h (S h) props true) bl il)
  = (Some (S h),
     mk_world
       (with_fru [(0, manager_iface)] (S h) (S (S h))
          (published_props char_signed fs) true)
       (bl ++ mk_server [(0, manager_iface)] (S h)
           :: scan_snapshots char_signed fs [(0, manager_iface)] (S h))
       (il ++ server_id_io fs ++ scan_io fs eeproms)).
Proof.
  intros Hh. unfold rescanBus.
  assert (Hrm : remove_interface h
                  (mk_world (with_fru [(0, manager_iface)] h (S h) props true) bl il)
                = (tt, mk_world (mk_server [(0, manager_iface)] (S h))
                                (bl ++ [mk_server [(0, manager_iface)] (S h)]) il)).
  { unfold remove_interface, update_server, with_fru.
    cbn [objServer bus_log io_log interfaces_ next_handle app filter fst].
    rewrite Nat.eqb_refl. destruct h; [lia | reflexivity]. }
  rewrite (bind_run _ _ _ _ _ Hrm).
  rewrite (AddFRUObjectToDbus_run _ _ _ _ _ _ _ (fresh_manager (S h) (Nat.lt_0_succ h))).
  unfold scan_snapshots. now rewrite <- app_assoc.
Qed.

Lemma serve_run char_signed calls :
  forall h props bl il,
    0 < h ->
    exists h' props' added il',
      serve char_signed calls (Some h)
        (mk_world (with_fru [(0, manager_iface)] h (S h) props true) bl il)
      = (Some h',
         mk_world (with_fru [(0, manager_iface)] h' (S h') props' true)
                  (bl ++ added) il')
      /\ 0 < h' /\ Forall steady added.
Proof.
  induction calls as [| fs calls IH]; intros h props bl il Hh.
  - exists h, props, [], il. rewrite app_nil_r. repeat split; auto.
  - cbn [serve].
    rewrite (bind_run _ _ _ _ _ (rescanBus_published_run _ fs _ _ _ _ Hh)).
    destruct (IH (S h) (published_props char_signed fs)
                 (bl ++ mk_server [(0, manager_iface)] (S h)
                     :: scan_snapshots char_signed fs [(0, manager_iface)] (S h))
                 (il ++ server_id_io fs ++ scan_io fs eeproms)
                 (Nat.lt_0_succ h))
      as (h' & props' & added & il' & Hrun & Hh' & Hadded).
    exists h', props',
      ((mk_server [(0, manager_iface)] (S h)
          :: scan_snapshots char_signed fs [(0, manager_iface)] (S h)) ++ added),
      il'.
    rewrite Hrun, <- app_assoc. repeat split; auto.
    apply Forall_app. split; [| exact Hadded].
    constructor; [now left | apply steady_scan_snapshots; lia].
Qed.

Lemma main_run char_signed fs calls :
  exists h props added il,
    main char_signed fs calls world0
    = ((Some h, 0),
       mk_world (with_fru [(0, manager_iface)] h (S h) props true)
                (startup_snapshots ++ added) il)
    /\ 0 < h /\ Forall steady added.
Proof.
  unfold main.
  assert (Hstart :
    main_startup char_signed fs world0
    = ((Some 1, 0),
       mk_world
         (with_fru [(0, manager_iface)] 1 2 (published_props char_signed fs) true)
         ((startup_snapshots ++ [mk_server [(0, manager_iface)] 1])
            ++ scan_snapshots char_signed fs [(0, manager_iface)] 1)
         ([] ++ server_id_io fs ++ scan_io fs eeproms))).
  { unfold main_startup.
    do 3 (erewrite bind_run by reflexivity).
    erewrite bind_run
      by (apply (rescanBus_unpublished_run char_signed fs 1 _ _ Nat.lt_0_1)).
    reflexivity. }
  rewrite (bind_run _ _ _ _ _ Hstart). cbn [fst snd].
  destruct (serve_run char_signed calls 1 (published_props char_signed fs)
              ((startup_snapshots ++ [mk_server [(0, manager_iface)] 1])
                 ++ scan_snapshots char_signed fs [(0, manager_iface)] 1)
              ([] ++ server_id_io fs ++ scan_io fs eeproms) Nat.lt_0_1)
    as (h' & props' & added & il' & Hrun & Hh' & Hadded).
  rewrite (bind_run _ _ _ _ _ Hrun).
  exists h', props',
    (([mk_server [(0, manager_iface)] 1]
        ++ scan_snapshots char_signed fs [(0, manager_iface)] 1) ++ added),
    il'.
  split; [| split; [exact Hh' |]].
  - unfold ret. now rewrite <- !app_assoc.
  - apply Forall_app. split; [| exact Hadded].
    apply Forall_app. split; [constructor; [now left | constructor] |].
    apply steady_scan_snapshots. lia.
Qed.

(** * Scans *)

Lemma find_iface_with_fru h l n props initialized :
  fresh h l ->
  find_iface h (with_fru l h n props initialized)
  = Some (fru_iface props initialized).
Proof.
  intros Hl. unfold find_iface, with_fru. cbn [interfaces_].
  induction Hl as [| e l He _ IH]; cbn [app find fst].
  - now rewrite Nat.eqb_refl.
  - apply Nat.eqb_neq in He. now rewrite He.
Qed.

Lemma first_open_none fs paths :
  (forall q, In q paths -> fs q = None) -> first_open fs paths = None.
Proof.
  induction paths as [| p rest IH]; intros H; [reflexivity |].
  cbn [first_open]. rewrite (H p) by now left.
  apply IH. intros q Hq. apply H. now right.
Qed.

Lemma first_open_split fs pre p post bytes :
  (forall q, In q pre -> fs q = None) -> fs p = Some bytes ->
  first_open fs (pre ++ p :: post) = Some bytes.
Proof.
  induction pre as [| q0 pre IH]; intros H Hp; cbn [app first_open].
  - now rewrite Hp.
  - rewrite (H q0) by now left.
    apply IH; [| exact Hp]. intros q Hq. apply H. now right.
Qed.

Lemma scan_io_split fs pre p post bytes :
  (forall q, In q pre -> fs q = None) -> fs p = Some bytes ->
  scan_io fs (pre ++ p :: post)
  = map (fun q => IoOpen q false) pre ++ [IoOpen p true; IoClose].
Proof.
  induction pre as [| q0 pre IH]; intros H Hp; cbn [app scan_io map].
  - now rewrite Hp.
  - rewrite (H q0) by now left. f_equal.
    apply IH; [| exact Hp]. intros q Hq. apply H. now right.
Qed.

(** C2, as stated, fails: with no EEPROM to open the scan publishes the
    FRU object, but none of the six properties read from the EEPROM is
    registered on it, so none of them has the value [unknown]. *)
Lemma scan_without_eeprom_not_unknown :
  let w' := snd (AddFRUObjectToDbus false (fs_of []) None world0) in
  exists i,
    find_iface 0 (objServer w') = Some i
    /\ if_initialized i = true
    /\ Forall (fun name => get_property name i = None) eeprom_property_names
    /\ Forall (fun name => get_property name i <> Some unknown)
              eeprom_property_names.
Proof.
  eexists. split; [vm_compute; reflexivity |]. split; [reflexivity |].
  split; repeat constructor; vm_compute; discriminate.
Qed.

(** C2, amended: when no candidate EEPROM opens, the scan still
    publishes the FRU object, initialized, at the FRU path; its
    properties are the server identifier and the manufacturer, and none
    of the six properties read from the EEPROM is registered on it. *)
Theorem scan_without_eeprom (char_signed : bool) (fs : filesystem)
  (iface : option handle) (w : world) :
  fresh (next_handle (objServer w)) (interfaces_ (objServer w)) ->
  (forall p, In p eeproms -> fs p = None) ->
  let h := next_handle (objServer w) in
  let r := AddFRUObjectToDbus char_signed fs iface w in
  fst r = Some h
  /\ exists i,
       find_iface h (objServer (snd r)) = Some i
       /\ if_path i = productName
       /\ if_initialized i = true
       /\ if_properties i
          = [ ("SERVER_ID"%string, server_id fs);
              ("PRODUCT_MANUFACTURER"%string, GetManufactuer) ]
       /\ Forall (fun name => get_property name i = None)
                 eeprom_property_names.
Proof.
  destruct w as [[l n] bl il]. cbn [objServer next_handle interfaces_].
  intros Hl Hnone. cbv zeta.
  rewrite (AddFRUObjectToDbus_run _ _ _ _ _ _ _ Hl). cbn [fst snd objServer].
  split; [reflexivity |].
  exists (fru_iface (published_props char_signed fs) true).
  rewrite (find_iface_with_fru _ _ _ _ _ Hl).
  unfold published_props, scanned_props.
  rewrite (first_open_none _ _ Hnone), app_nil_r.
  repeat split. repeat constructor.
Qed.

Lemma scan_without_eeprom_witness :
  let r := AddFRUObjectToDbus false (fs_of []) None world0 in
  fst r = Some 0
  /\ exists i,
       find_iface 0 (objServer (snd r)) = Some i
       /\ if_path i = productName
       /\ if_initialized i = true
       /\ if_properties i
          = [ ("SERVER_ID"%string, server_id (fs_of []));
              ("PRODUCT_MANUFACTURER"%string, GetManufactuer) ]
       /\ Forall (fun name => get_property name i = None)
                 eeprom_property_names.
Proof.
  apply (scan_without_eeprom false (fs_of []) None world0).
  - constructor.
  - reflexivity.
Defined.

(** C5: the scan tries the candidate paths in their order; the paths
    before the first one that opens fail to open, that one is opened,
    decoded and closed, and no path after it is opened.  The properties
    published are the fields decoded from its bytes. *)
Theorem scan_first_openable (char_signed : bool) (fs : filesystem)
  (iface : option handle) (w : world)
  (pre post : list string) (p : string) (bytes : list byte) :
  fresh (next_handle (objServer w)) (interfaces_ (objServer w)) ->
  eeproms = pre ++ p :: post ->
  (forall q, In q pre -> fs q = None) ->
  fs p = Some bytes ->
  let h := next_handle (objServer w) in
  let r := AddFRUObjectToDbus char_signed fs iface w in
  find_iface h (objServer (snd r))
  = Some (fru_iface
            (base_props (server_id fs)
             ++ fields_props (fst (decode char_signed (opened bytes))))
            true)
  /\ io_log (snd r)
     = io_log w ++ server_id_io fs
       ++ map (fun q => IoOpen q false) pre ++ [IoOpen p true; IoClose].
Proof.
  destruct w as [[l n] bl il]. cbn [objServer next_handle interfaces_ io_log].
  intros Hl Hsplit Hpre Hp. cbv zeta.
  rewrite (AddFRUObjectToDbus_run _ _ _ _ _ _ _ Hl).
  cbn [fst snd objServer io_log].
  rewrite (find_iface_with_fru _ _ _ _ _ Hl).
  unfold published_props, scanned_props. rewrite Hsplit.
  rewrite (first_open_split _ _ _ _ _ Hpre Hp).
  rewrite (scan_io_split _ _ _ _ _ Hpre Hp), decode_opened.
  split; reflexivity.
Qed.

Lemma scan_first_openable_witness :
  let fs := fs_of [("/sys/bus/i2c/devices/2-0054/eeprom"%string,
                    repeat x41 176)] in
  let r := AddFRUObjectToDbus false fs None world0 in
  find_iface 0 (objServer (snd r))
  = Some (fru_iface
            (base_props (server_id fs)
             ++ fields_props (fst (decode false (opened (repeat x41 176)))))
            true)
  /\ io_log (snd r)
     = io_log world0 ++ server_id_io fs
       ++ map (fun q => IoOpen q false) ["/sys/bus/i2c/devices/2-0055/eeprom"%string]
       ++ [IoOpen "/sys/bus/i2c/devices/2-0054/eeprom" true; IoClose].
Proof.
  apply (scan_first_openable false
           (fs_of [("/sys/bus/i2c/devices/2-0054/eeprom"%string,
                    repeat x41 176)])
           None world0
           ["/sys/bus/i2c/devices/2-0055/eeprom"%string]
           ["/sys/bus/i2c/devices/2-0050/eeprom"%string]
           "/sys/bus/i2c/devices/2-0054/eeprom" (repeat x41 176)).
  - constructor.
  - reflexivity.
  - intros q [<- | []]. reflexivity.
  - reflexivity.
Defined.

(** * Rescans *)

Lemma find_iface_removed h w :
  find_iface h (objServer (snd (remove_interface h w))) = None.
Proof.
  unfold find_iface, remove_interface, update_server.
  cbn [snd objServer interfaces_].
  induction (interfaces_ (objServer w)) as [| e l IH]; [reflexivity |].
  cbn [filter]. destruct (Nat.eqb (fst e) h) eqn:E; cbn [negb]; [exact IH |].
  cbn [find]. now rewrite E.
Qed.

(** C3: a rescan with a null reference removes nothing and is the scan;
    a rescan with a published object first removes it from the object
    server, then scans; and in every run of the program, after the
    start-up scan and any number of rescans, the object server holds
    exactly one object at the FRU path, initialized, and it held at most
    one after each of its mutations. *)
Theorem rescan_one_fru_object (char_signed : bool) (fs : filesystem)
  (calls : list filesystem) :
  (forall w,
      rescanBus char_signed fs None w = AddFRUObjectToDbus char_signed fs None w)
  /\ (forall h w,
         rescanBus char_signed fs (Some h) w
         = AddFRUObjectToDbus char_signed fs (Some h)
             (snd (remove_interface h w))
         /\ find_iface h (objServer (snd (remove_interface h w))) = None
         /\ bus_log (snd (remove_interface h w))
            = bus_log w ++ [objServer (snd (remove_interface h w))])
  /\ (let r := main char_signed fs calls world0 in
      exists h i,
        fst (fst r) = Some h
        /\ objects_at productName (objServer (snd r)) = [(h, i)]
        /\ if_initialized i = true
        /\ Forall (fun srv => length (objects_at productName srv) <= 1)
                  (bus_log (snd r))).
Proof.
  split; [reflexivity |]. split.
  - intros h w. split; [reflexivity |].
    split; [apply find_iface_removed | reflexivity].
  - cbv zeta.
    destruct (main_run char_signed fs calls)
      as (h & props & added & il & -> & Hh & Hadded).
    exists h, (fru_iface props true). cbn [fst snd objServer bus_log].
    repeat split.
    apply Forall_app. split.
    + repeat constructor.
    + eapply Forall_impl; [| exact Hadded]. apply steady_fru_count.
Qed.

(** C8: in every run of the program the manager object is the first
    thing created and is there, one object at the manager path, after
    every mutation of the object server; from its initialization on, in
    the start-up scan and through any number of rescans, it is the same
    object, with its path, its interface name and its [ReScan] method. *)
Theorem manager_object_kept (char_signed : bool) (fs : filesystem)
  (calls : list filesystem) :
  let r := main char_signed fs calls world0 in
  snd (fst r) = 0
  /\ find_iface 0 (objServer (snd r)) = Some manager_iface
  /\ objects_at managerPath (objServer (snd r)) = [(0, manager_iface)]
  /\ firstn 2 (bus_log (snd r)) = startup_snapshots
  /\ Forall (fun srv =>
               find_iface 0 srv = Some manager_iface
               /\ objects_at managerPath srv = [(0, manager_iface)])
            (skipn 2 (bus_log (snd r)))
  /\ Forall (fun srv => length (objects_at managerPath srv) = 1)
            (bus_log (snd r)).
Proof.
  cbv zeta.
  destruct (main_run char_signed fs calls)
    as (h & props & added & il & -> & Hh & Hadded).
  cbn [fst snd objServer bus_log].
  assert (Hkept : Forall (fun srv =>
                            find_iface 0 srv = Some manager_iface
                            /\ objects_at managerPath srv = [(0, manager_iface)])
                         added).
  { eapply Forall_impl; [| exact Hadded]. apply steady_manager. }
  repeat split; try exact Hkept.
  apply Forall_app. split; [repeat constructor |].
  eapply Forall_impl; [| exact Hkept]. intros srv [_ ->]. reflexivity.
Qed.

(** * Further properties of the field readers *)

(** X1: on a stream that has not failed, [GetStr] returns exactly [size]
    characters whatever the offset and the length of the source, and it
    leaves the stream failed exactly when fewer than [size] bytes are
    left from the offset on: a range that ends with the last byte of the
    source is read in full, is returned verbatim and leaves the stream
    good, positioned at the end of the range. *)
Theorem GetStr_boundary (bytes : list byte) (fin : ifstream)
  (offset size : nat) :
  on_file bytes fin -> failbit fin = false ->
  String.length (fst (GetStr fin offset size)) = size
  /\ failbit (snd (GetStr fin offset size))
     = Nat.ltb (length bytes - offset) size
  /\ (offset + size <= length bytes ->
      fst (GetStr fin offset size)
      = string_of_list_byte (range bytes offset size)
      /\ gpos (snd (GetStr fin offset size)) = offset + size
      /\ eofbit (snd (GetStr fin offset size)) = false).
Proof.
  intros Hf Hok. rewrite (GetStr_ok _ _ _ _ Hf Hok). cbn [fst snd].
  rewrite length_string_of_list_byte, length_padded.
  split; [reflexivity |]. cbv zeta. cbn [failbit gpos eofbit].
  rewrite short_range. split; [reflexivity |].
  intros Hlen. rewrite (padded_full _ _ _ Hlen), (range_full _ _ _ Hlen).
  rewrite (short_false _ _ _ Hlen). auto.
Qed.

Lemma GetStr_boundary_witness :
  String.length (fst (GetStr (opened (repeat x41 176)) 160 16)) = 16
  /\ failbit (snd (GetStr (opened (repeat x41 176)) 160 16))
     = Nat.ltb (length (repeat x41 176) - 160) 16.
Proof.
  destruct (GetStr_boundary (repeat x41 176) (opened (repeat x41 176)) 160 16
              eq_refl eq_refl) as (H1 & H2 & _).
  exact (conj H1 H2).
Defined.

(** ** The MAC string *)

Lemma length_mac_buffer fin offset :
  length (fst (mac_buffer fin offset)) = 6.
Proof.
  unfold mac_buffer, read, store.
  destruct (negb (fail fin)); [| reflexivity].
  destruct (good (seekg offset fin)); [| reflexivity].
  destruct (rdbuf (seekg offset fin)); [| reflexivity].
  cbn [fst]. rewrite length_app, length_skipn, repeat_length, length_firstn.
  unfold MACAddressSize. lia.
Qed.

Lemma list_of_length_6 {A : Type} (v : list A) :
  length v = 6 -> exists b0 b1 b2 b3 b4 b5, v = [b0; b1; b2; b3; b4; b5].
Proof.
  destruct v as [| b0 [| b1 [| b2 [| b3 [| b4 [| b5 [| b6 v]]]]]]];
    try discriminate.
  intros _. now exists b0, b1, b2, b3, b4, b5.
Qed.

(** X2: where plain [char] is unsigned, [GetMACAddress] returns 17
    characters, six pairs of hexadecimal digits with colons between
    them, for every stream: open or not, failed or not, and whatever the
    offset and the length of the source. *)
Theorem GetMACAddress_shape (fin : ifstream) (offset : nat) :
  String.length (fst (GetMACAddress false fin offset)) = 17
  /\ exists b0 b1 b2 b3 b4 b5,
       fst (GetMACAddress false fin offset)
       = (hex2 b0 ++ ":" ++ hex2 b1 ++ ":" ++ hex2 b2 ++ ":" ++ hex2 b3
            ++ ":" ++ hex2 b4 ++ ":" ++ hex2 b5)%string.
Proof.
  unfold GetMACAddress.
  destruct (mac_buffer fin offset) as [v fin'] eqn:E.
  assert (Hv : length v = 6)
    by (rewrite <- (length_mac_buffer fin offset), E; reflexivity).
  destruct (list_of_length_6 v Hv) as (b0 & b1 & b2 & b3 & b4 & b5 & ->).
  cbn [fst].
  destruct (format_mac_two_digits false b0 b1 b2 b3 b4 b5 (or_introl eq_refl))
    as [Heq Hlen].
  split; [exact Hlen |]. now exists b0, b1, b2, b3, b4, b5.
Qed.

Lemma unhex2_hex2 b : unhex2 (hex2 b) = Some b.
Proof. destruct b; reflexivity. Qed.

Lemma parse_mac_hex2 b0 b1 b2 b3 b4 b5 :
  parse_mac (hex2 b0 ++ ":" ++ hex2 b1 ++ ":" ++ hex2 b2 ++ ":" ++ hex2 b3
               ++ ":" ++ hex2 b4 ++ ":" ++ hex2 b5)%string
  = Some [b0; b1; b2; b3; b4; b5].
Proof.
  change (parse_mac _) with
    (match unhex2 (hex2 b0), unhex2 (hex2 b1), unhex2 (hex2 b2),
           unhex2 (hex2 b3), unhex2 (hex2 b4), unhex2 (hex2 b5) with
     | Some a, Some b, Some c, Some d, Some e, Some f => Some [a; b; c; d; e; f]
     | _, _, _, _, _, _ => None
     end).
  now rewrite !unhex2_hex2.
Qed.

(** X3: the MAC string determines the bytes.  Where plain [char] is
    unsigned, or no byte has its high bit set, two buffers of six bytes
    that are formatted to the same string are the same bytes. *)
Theorem format_mac_injective (char_signed : bool) (v1 v2 : list byte) :
  length v1 = 6 -> length v2 = 6 ->
  char_signed = false
  \/ forallb (fun b => negb (high_bit b)) (v1 ++ v2) = true ->
  format_mac char_signed v1 = format_mac char_signed v2 ->
  v1 = v2.
Proof.
  intros H1 H2 Hs Heq.
  destruct (list_of_length_6 v1 H1) as (a0 & a1 & a2 & a3 & a4 & a5 & ->).
  destruct (list_of_length_6 v2 H2) as (c0 & c1 & c2 & c3 & c4 & c5 & ->).
  assert (Hs1 : char_signed = false
                \/ forallb (fun b => negb (high_bit b)) [a0; a1; a2; a3; a4; a5]
                   = true).
  { destruct Hs as [Hs | Hs]; [now left | right].
    rewrite forallb_app in Hs. now apply andb_prop in Hs. }
  assert (Hs2 : char_signed = false
                \/ forallb (fun b => negb (high_bit b)) [c0; c1; c2; c3; c4; c5]
                   = true).
  { destruct Hs as [Hs | Hs]; [now left | right].
    rewrite forallb_app in Hs. now apply andb_prop in Hs. }
  destruct (format_mac_two_digits _ _ _ _ _ _ _ Hs1) as [E1 _].
  destruct (format_mac_two_digits _ _ _ _ _ _ _ Hs2) as [E2 _].
  rewrite E1, E2 in Heq. apply (f_equal parse_mac) in Heq.
  rewrite !parse_mac_hex2 in Heq. now injection Heq as -> -> -> -> -> ->.
Qed.

Lemma format_mac_injective_witness :
  length (bytes_of [255; 128; 1; 2; 3; 4]%N) = 6
  /\ format_mac false (bytes_of [255; 128; 1; 2; 3; 4]%N)
     = format_mac false (bytes_of [255; 128; 1; 2; 3; 4]%N)
  /\ bytes_of [255; 128; 1; 2; 3; 4]%N = bytes_of [255; 128; 1; 2; 3; 4]%N.
Proof.
  split; [reflexivity |]. split; [reflexivity |].
  apply (format_mac_injective false);
    [reflexivity | reflexivity | now left | reflexivity].
Defined.

(** ** The fields by the length of the source *)

Ltac decide_short :=
  repeat match goal with
         | |- context [short ?b ?o ?s] =>
             first [ rewrite (short_true b o s) by lia
                   | rewrite (short_false b o s) by lia ]
         end.

(** X4: what each field is depends on the length of the source alone.
    The part number is always the 16-byte buffer read at offset 109.  The
    serial number and the PCA part number are read from the source when
    it has at least 125 bytes, the end of the part number, and are
    [unknown] when it has fewer.  The PCA serial number and the two MAC
    addresses are read from the source when it has at least 176 bytes,
    the end of the PCA part number, and are [unknown] and the zero MAC
    when it has fewer. *)
Theorem decode_by_length (char_signed : bool) (bytes : list byte) :
  let f := fst (decode char_signed (opened bytes)) in
  let n := length bytes in
  part_number f = string_of_list_byte (padded bytes 109 16)
  /\ serial_number f
     = (if Nat.ltb n 125 then unknown
        else string_of_list_byte (range bytes 1 16))
  /\ pca_part_number f
     = (if Nat.ltb n 125 then unknown
        else string_of_list_byte (padded bytes 160 16))
  /\ pca_serial_number f
     = (if Nat.ltb n 176 then unknown
        else string_of_list_byte (range bytes 144 16))
  /\ mac0 f
     = (if Nat.ltb n 176 then zero_mac
        else format_mac char_signed (range bytes 132 6))
  /\ mac1 f
     = (if Nat.ltb n 176 then zero_mac
        else format_mac char_signed (range bytes 138 6)).
Proof.
  cbv zeta. rewrite decode_opened. unfold decoded.
  cbv [PartNumberOffset PartNumberSize SerialNumberOffset
       SerialNumberSize PcaPartNumberOffset PcaPartNumberSize
       PcaSerialNumberOffset PcaSerialNumberSize MAC0AddressOffset
       MAC1AddressOffset MACAddressSize].
  cbn [part_number serial_number pca_part_number pca_serial_number mac0 mac1].
  pose proof (format_mac_zero char_signed) as Hz.
  unfold MACAddressSize in Hz.
  destruct (Nat.ltb_spec (length bytes) 125) as [H125 | H125];
    destruct (Nat.ltb_spec (length bytes) 176) as [H176 | H176];
    try lia; decide_short; cbn [orb]; rewrite ?Hz;
    rewrite ?padded_full by lia; repeat split; reflexivity.
Qed.

(** * Further properties of the server identifier *)

Lemma line_of_prefix bytes :
  ~ In x0a (fst (line_of bytes))
  /\ exists rest, bytes = fst (line_of bytes) ++ rest.
Proof.
  induction bytes as [| b bytes [IHn [rest IHp]]]; cbn [line_of].
  - split; [intros [] | now exists []].
  - destruct (Byte.eqb b x0a) eqn:E; cbn [fst].
    + split; [intros [] | now exists (b :: bytes)].
    + destruct (line_of bytes) as [l nl]. cbn [fst] in *. split.
      * intros [-> | Hin]; [| now apply IHn].
        vm_compute in E. discriminate E.
      * exists rest. cbn [app]. now f_equal.
Qed.

Lemma ascii_of_byte_newline b : ascii_of_byte b = "010"%char -> b = x0a.
Proof.
  intros H. apply (f_equal byte_of_ascii) in H.
  now rewrite byte_of_ascii_of_byte in H.
Qed.

(** X5: the server identifier never has a newline in it, and when the
    identity file opens it is a prefix of the file: what follows the
    first line is not read into it.  When the file does not open it is
    the sentinel. *)
Theorem GetServerId_single_line (fs : filesystem) (w : world) :
  let id := fst (GetServerId fs w) in
  ~ In "010"%char (list_ascii_of_string id)
  /\ match fs server_id_path with
     | Some bytes => exists rest, bytes = list_byte_of_string id ++ rest
     | None => id = unknown
     end.
Proof.
  cbv zeta. rewrite GetServerId_run. cbn [fst]. rewrite server_id_value.
  destruct (fs server_id_path) as [bytes |].
  - destruct (line_of_prefix bytes) as [Hn Hp].
    rewrite list_byte_of_string_of_list_byte. split; [| exact Hp].
    unfold string_of_list_byte.
    rewrite list_ascii_of_string_of_list_ascii.
    intros Hin. apply in_map_iff in Hin. destruct Hin as (b & Hb & Hin).
    apply ascii_of_byte_newline in Hb. subst b. now apply Hn.
  - split; [| reflexivity].
    cbn. intros H.
    repeat (destruct H as [H | H]; [discriminate H |]). exact H.
Qed.

(** * Further properties of a scan *)

Lemma first_open_openable fs paths :
  first_open fs paths = None <-> existsb (openable fs) paths = false.
Proof.
  induction paths as [| p rest IH]; cbn [first_open existsb]; [tauto |].
  unfold openable at 1. destruct (fs p); cbn [orb]; [| exact IH].
  split; discriminate.
Qed.

(** X6: the FRU object a scan publishes has the properties [SERVER_ID]
    and [PRODUCT_MANUFACTURER], the latter always "Hewlett Packard
    Enterprise", followed by all six EEPROM properties when one of the
    candidate paths opens and by none of them when none does; no name is
    registered twice. *)
Theorem scan_property_names (char_signed : bool) (fs : filesystem)
  (iface : option handle) (w : world) :
  fresh (next_handle (objServer w)) (interfaces_ (objServer w)) ->
  let h := next_handle (objServer w) in
  let r := AddFRUObjectToDbus char_signed fs iface w in
  exists i,
    find_iface h (objServer (snd r)) = Some i
    /\ map fst (if_properties i)
       = [ "SERVER_ID"%string; "PRODUCT_MANUFACTURER"%string ]
         ++ (if existsb (openable fs) eeproms then eeprom_property_names
             else [])
    /\ NoDup (map fst (if_properties i))
    /\ get_property "SERVER_ID" i = Some (server_id fs)
    /\ get_property "PRODUCT_MANUFACTURER" i
       = Some "Hewlett Packard Enterprise"%string.
Proof.
  destruct w as [[l n] bl il]. cbn [objServer next_handle interfaces_].
  intros Hl. cbv zeta.
  rewrite (AddFRUObjectToDbus_run _ _ _ _ _ _ _ Hl). cbn [snd objServer].
  exists (fru_iface (published_props char_signed fs) true).
  rewrite (find_iface_with_fru _ _ _ _ _ Hl). split; [reflexivity |].
  unfold published_props, scanned_props.
  destruct (first_open fs eeproms) as [bytes |] eqn:E.
  - destruct (existsb (openable fs) eeproms) eqn:Ex.
    + repeat split.
      repeat (constructor;
              [cbn; intros H;
               repeat (destruct H as [H | H]; [discriminate H |]); exact H |]).
      constructor.
    + apply first_open_openable in Ex. congruence.
  - apply first_open_openable in E. rewrite E. repeat split.
    repeat (constructor;
            [cbn; intros H;
             repeat (destruct H as [H | H]; [discriminate H |]); exact H |]).
    constructor.
Qed.

Lemma scan_property_names_witness :
  let fs := fs_of [("/sys/bus/i2c/devices/2-0050/eeprom"%string,
                    repeat x41 176)] in
  let r := AddFRUObjectToDbus false fs None world0 in
  exists i,
    find_iface 0 (objServer (snd r)) = Some i
    /\ map fst (if_properties i)
       = [ "SERVER_ID"%string; "PRODUCT_MANUFACTURER"%string ]
         ++ (if existsb (openable fs) eeproms then eeprom_property_names
             else [])
    /\ NoDup (map fst (if_properties i))
    /\ get_property "SERVER_ID" i = Some (server_id fs)
    /\ get_property "PRODUCT_MANUFACTURER" i
       = Some "Hewlett Packard Enterprise"%string.
Proof.
  apply (scan_property_names false
           (fs_of [("/sys/bus/i2c/devices/2-0050/eeprom"%string,
                    repeat x41 176)]) None world0).
  constructor.
Defined.

(** * Further properties of a run *)

Lemma last_cons_default {A : Type} (a : A) (l : list A) (d : A) :
  last (a :: l) d = last l a.
Proof.
  revert a d. induction l as [| b l IH]; intros a d; [reflexivity |].
  change (last (a :: b :: l) d) with (last (b :: l) d).
  now rewrite (IH b d), (IH b a).
Qed.

Lemma last_map_default {A B : Type} (f : A -> B) (l : list A) (d : A) :
  last (map f l) (f d) = f (last l d).
Proof.
  revert d. induction l as [| a l IH]; intros d; [reflexivity |].
  cbn [map]. now rewrite !last_cons_default.
Qed.

Lemma serve_exact char_signed calls :
  forall h props bl il,
    0 < h ->
    serve char_signed calls (Some h)
      (mk_world (with_fru [(0, manager_iface)] h (S h) props true) bl il)
    = (Some (length calls + h),
       mk_world
         (with_fru [(0, manager_iface)] (length calls + h)
            (S (length calls + h))
            (last (map (published_props char_signed) calls) props) true)
         (bl ++ serve_snapshots char_signed calls h)
         (il ++ concat (map call_io calls))).
Proof.
  induction calls as [| fs calls IH]; intros h props bl il Hh.
  - cbn. now rewrite !app_nil_r.
  - cbn [serve].
    rewrite (bind_run _ _ _ _ _ (rescanBus_published_run _ fs _ _ _ _ Hh)).
    rewrite (IH (S h) _ _ _ (Nat.lt_0_succ h)).
    cbn [length map concat serve_snapshots].
    change (call_io fs) with (server_id_io fs ++ scan_io fs eeproms).
    rewrite last_cons_default, Nat.add_succ_r, <- !app_assoc.
    reflexivity.
Qed.

Lemma main_exact char_signed fs calls :
  main char_signed fs calls world0
  = ((Some (S (length calls)), 0),
     mk_world
       (with_fru [(0, manager_iface)] (S (length calls))
          (S (S (length calls)))
          (last (map (published_props char_signed) calls)
                (published_props char_signed fs)) true)
       (startup_snapshots
          ++ (mk_server [(0, manager_iface)] 1
                :: scan_snapshots char_signed fs [(0, manager_iface)] 1)
          ++ serve_snapshots char_signed calls 1)
       (concat (map call_io (fs :: calls)))).
Proof.
  unfold main.
  assert (Hstart :
    main_startup char_signed fs world0
    = ((Some 1, 0),
       mk_world
         (with_fru [(0, manager_iface)] 1 2 (published_props char_signed fs) true)
         ((startup_snapshots ++ [mk_server [(0, manager_iface)] 1])
            ++ scan_snapshots char_signed fs [(0, manager_iface)] 1)
         ([] ++ server_id_io fs ++ scan_io fs eeproms))).
  { unfold main_startup.
    do 3 (erewrite bind_run by reflexivity).
    erewrite bind_run
      by (apply (rescanBus_unpublished_run char_signed fs 1 _ _ Nat.lt_0_1)).
    reflexivity. }
  rewrite (bind_run _ _ _ _ _ Hstart). cbn [fst snd].
  rewrite (bind_run _ _ _ _ _
             (serve_exact char_signed calls 1 _ _ _ Nat.lt_0_1)).
  unfold ret. rewrite Nat.add_1_r. cbn [map concat app].
  change (call_io fs) with (server_id_io fs ++ scan_io fs eeproms).
  rewrite <- !app_assoc. reflexivity.
Qed.

(** X7: in every run of the program, after the start-up scan and any
    list of [ReScan] calls, the object server holds two objects, the
    manager and one FRU object.  The properties of the FRU object are
    those of a scan of the file system of the last call alone, with
    nothing left from earlier scans, and its handle is a new one at
    every call: the object is never reused. *)
Theorem main_final_state (char_signed : bool) (fs : filesystem)
  (calls : list filesystem) :
  let r := main char_signed fs calls world0 in
  fst r = (Some (S (length calls)), 0)
  /\ objServer (snd r)
     = mk_server
         [ (0, manager_iface);
           (S (length calls),
            fru_iface (published_props char_signed (last calls fs)) true) ]
         (S (S (length calls))).
Proof.
  cbv zeta. rewrite main_exact. cbn [fst snd objServer].
  split; [reflexivity |].
  unfold with_fru. cbn [app]. now rewrite last_map_default.
Qed.

Lemma open_files_app l1 l2 :
  forall n,
    open_files (l1 ++ l2) n
    = match open_files l1 n with
      | Some m => open_files l2 m
      | None => None
      end.
Proof.
  induction l1 as [| e l1 IH]; intros n; [reflexivity |].
  cbn [app open_files]. destruct e as [path [|] |].
  - destruct (Nat.eqb n 0); [apply IH | reflexivity].
  - apply IH.
  - destruct (Nat.eqb n 1); [apply IH | reflexivity].
Qed.

Lemma server_id_io_closed fs : open_files (server_id_io fs) 0 = Some 0.
Proof.
  unfold server_id_io, GetServerId, fin_open, fin_close, bind, log_io, ret,
    open, fail, getline, good. simpl.
  destruct (fs server_id_path) as [bytes |]; simpl; [| reflexivity].
  destruct (line_of bytes) as [l [|]]; reflexivity.
Qed.

Lemma scan_io_closed fs paths : open_files (scan_io fs paths) 0 = Some 0.
Proof.
  induction paths as [| p rest IH]; [reflexivity |].
  cbn [scan_io]. destruct (fs p); [reflexivity | exact IH].
Qed.

Lemma call_io_closed fs : open_files (call_io fs) 0 = Some 0.
Proof.
  unfold call_io. rewrite open_files_app, server_id_io_closed.
  apply scan_io_closed.
Qed.

(** X8: in every run of the program the files are used one at a time:
    no file is opened while another one is open, nothing is closed that
    is not open, and after the start-up scan and any list of [ReScan]
    calls no file is left open. *)
Theorem files_closed_after_use (char_signed : bool) (fs : filesystem)
  (calls : list filesystem) :
  open_files (io_log (snd (main char_signed fs calls world0))) 0 = Some 0.
Proof.
  rewrite main_exact. cbn [snd io_log].
  induction (fs :: calls) as [| fs' l IH]; [reflexivity |].
  cbn [map concat]. now rewrite open_files_app, call_io_closed.
Qed.

Lemma fully_published_no_fru char_signed fss srv :
  objects_at productName srv = [] -> fully_published char_signed fss srv.
Proof. intros H h i Hin. rewrite H in Hin. destruct Hin. Qed.

Lemma fully_published_scan char_signed fss fs n :
  In fs fss ->
  Forall (fully_published char_signed fss)
         (scan_snapshots char_signed fs [(0, manager_iface)] n).
Proof.
  intros Hfs. unfold scan_snapshots. apply Forall_app. split.
  - apply Forall_map, Forall_forall. intros ps _ h i Hin Hinit.
    cbn in Hin. destruct Hin as [Hin | []].
    injection Hin as _ <-. discriminate Hinit.
  - constructor; [| constructor]. intros h i Hin _.
    cbn in Hin. destruct Hin as [Hin | []].
    injection Hin as _ <-. now exists fs.
Qed.

Lemma fully_published_serve char_signed fss calls :
  forall h,
    incl calls fss ->
    Forall (fully_published char_signed fss)
           (serve_snapshots char_signed calls h).
Proof.
  induction calls as [| fs calls IH]; intros h Hincl; [constructor |].
  cbn [serve_snapshots]. apply Forall_app. split.
  - constructor; [now apply fully_published_no_fru |].
    apply fully_published_scan. apply Hincl. now left.
  - apply IH. intros x Hx. apply Hincl. now right.
Qed.

(** X9: a FRU object is never on the bus half made.  In every run of the
    program, after each mutation of the object server, an object at the
    FRU path that is initialized has the whole property list of a scan
    of the file system of start-up or of one of the [ReScan] calls: the
    properties are registered before [initialize] and none after. *)
Theorem never_partially_published (char_signed : bool) (fs : filesystem)
  (calls : list filesystem) :
  Forall (fully_published char_signed (fs :: calls))
         (bus_log (snd (main char_signed fs calls world0))).
Proof.
  rewrite main_exact. cbn [snd bus_log].
  apply Forall_app. split.
  - repeat constructor; now apply fully_published_no_fru.
  - apply Forall_app. split.
    + constructor; [now apply fully_published_no_fru |].
      apply fully_published_scan. now left.
    + apply fully_published_serve. intros x Hx. now right.
Qed.

(** * [DumpFRU] *)

Lemma string_app_assoc (a b c : string) :
  ((a ++ b) ++ c = a ++ (b ++ c))%string.
Proof. induction a as [| ch a IH]; cbn; [reflexivity | now rewrite IH]. Qed.

Lemma string_app_nil_r (a : string) : (a ++ "" = a)%string.
Proof. induction a as [| ch a IH]; cbn; [reflexivity | now rewrite IH]. Qed.

Lemma dump_eeproms_found char_signed fs bytes p rest fin cout w :
  is_open fin = false -> fs p = Some bytes ->
  exists fin',
    dump_eeproms char_signed fs (p :: rest) fin cout w
    = ((fin',
        (cout ++ dump_text
                   (combine (skipn 2 dump_labels)
                            (map snd (fields_props (decoded char_signed bytes)))))
          %string),
       mk_world (objServer w) (bus_log w)
                (io_log w ++ [IoOpen p true; IoClose]))
    /\ is_open fin' = false.
Proof.
  intros Hfin Hp. cbn [dump_eeproms].
  rewrite (bind_run _ _ _ _ _ (fin_open_run _ _ _ _)).
  rewrite (open_opened _ _ _ _ Hfin Hp). cbn [is_open opened rdbuf].
  cbn [objServer bus_log io_log fail failbit negb].
  assert (Hf0 : on_file bytes (opened bytes)) by reflexivity.
  destruct (GetStr_step bytes _ PartNumberOffset PartNumberSize Hf0)
    as (fin1 & -> & Hf1 & Hb1).
  destruct (GetStr_step bytes fin1 SerialNumberOffset SerialNumberSize Hf1)
    as (fin2 & -> & Hf2 & Hb2).
  destruct (GetStr_step bytes fin2 PcaPartNumberOffset PcaPartNumberSize Hf2)
    as (fin3 & -> & Hf3 & Hb3).
  destruct (GetStr_step bytes fin3 PcaSerialNumberOffset PcaSerialNumberSize Hf3)
    as (fin4 & -> & Hf4 & Hb4).
  destruct (GetMACAddress_step char_signed bytes fin4 MAC0AddressOffset Hf4)
    as (fin5 & -> & Hf5 & Hb5).
  destruct (GetMACAddress_step char_signed bytes fin5 MAC1AddressOffset Hf5)
    as (fin6 & -> & Hf6 & Hb6).
  rewrite (bind_run _ _ _ _ _ (fin_close_run _ _)).
  cbn [objServer bus_log io_log]. unfold ret.
  exists (close fin6). split.
  - rewrite Hb5, Hb4, Hb3, Hb2, Hb1. cbn [opened failbit orb].
    rewrite <- app_assoc. f_equal. f_equal.
    unfold fields_props, decoded, dump_labels.
    cbn [skipn map snd combine dump_text part_number serial_number
         pca_part_number pca_serial_number mac0 mac1].
    rewrite !string_app_assoc, string_app_nil_r. reflexivity.
  - unfold close, is_open. unfold on_file in Hf6. now rewrite Hf6.
Qed.

Lemma dump_eeproms_run char_signed fs paths :
  forall fin cout w,
    is_open fin = false ->
    exists fin',
      dump_eeproms char_signed fs paths fin cout w
      = ((fin',
          (cout ++ dump_text
                     (combine (skipn 2 dump_labels)
                              (map snd (scanned_props char_signed fs paths))))
            %string),
         mk_world (objServer w) (bus_log w) (io_log w ++ scan_io fs paths))
      /\ is_open fin' = false.
Proof.
  induction paths as [| p rest IH]; intros fin cout w Hfin.
  - exists fin. split; [| exact Hfin].
    cbn. rewrite string_app_nil_r, app_nil_r. now destruct w.
  - destruct (fs p) as [bytes |] eqn:Hp.
    + unfold scanned_props. cbn [first_open scan_io]. rewrite Hp.
      now apply dump_eeproms_found.
    + cbn [dump_eeproms].
      rewrite (bind_run _ _ _ _ _ (fin_open_run _ _ _ _)).
      assert (Hopen : open fs p fin = setstate_fail fin).
      { unfold open, is_open in *. destruct (rdbuf fin); [discriminate |].
        now rewrite Hp. }
      rewrite Hopen.
      assert (Hfin' : is_open (setstate_fail fin) = false) by exact Hfin.
      rewrite Hfin'. cbn [fail failbit setstate_fail negb].
      destruct (IH (setstate_fail fin) cout
                   (mk_world (objServer w) (bus_log w)
                             (io_log w ++ [IoOpen p false])) Hfin')
        as (fin' & Hrun & Hclosed).
      exists fin'. split; [| exact Hclosed].
      rewrite Hrun. unfold scanned_props. cbn [first_open scan_io]. rewrite Hp.
      cbn [objServer bus_log io_log]. now rewrite <- app_assoc.
Qed.

(** X10: [DumpFRU] prints what a scan publishes.  Its output is one line
    [label=value] for each property [AddFRUObjectToDbus] registers for
    the same file system, with the same values in the same order: two
    lines when no EEPROM opens, eight when one does.  It does the file
    operations of a scan and leaves the object server as it is. *)
Theorem DumpFRU_prints_published (char_signed : bool) (fs : filesystem)
  (cout : string) (w : world) :
  DumpFRU char_signed fs cout w
  = ((cout ++ dump_text
                (combine dump_labels
                         (map snd (published_props char_signed fs))))%string,
     mk_world (objServer w) (bus_log w) (io_log w ++ call_io fs)).
Proof.
  unfold DumpFRU.
  rewrite (bind_run _ _ _ _ _ (GetServerId_run _ _)).
  destruct (dump_eeproms_run char_signed fs eeproms ifstream_new
              ((cout ++ "SERVER_ID=" ++ server_id fs ++ endl)
                 ++ "PRODUCT_MANUFACTURER=" ++ GetManufactuer ++ endl)%string
              (mk_world (objServer w) (bus_log w) (io_log w ++ server_id_io fs))
              eq_refl)
    as (fin' & Hrun & _).
  rewrite (bind_run _ _ _ _ _ Hrun). unfold ret. cbn [snd objServer bus_log io_log].
  unfold call_io. rewrite <- app_assoc. f_equal.
  unfold published_props, base_props, dump_labels.
  cbn [app map snd combine dump_text skipn].
  rewrite !string_app_assoc. reflexivity.
Qed.

(** * Further properties of a rescan *)

Lemma fresh_filter h (f : nat * dbus_interface -> bool) l :
  fresh h l -> fresh h (filter f l).
Proof.
  intros H. induction H as [| e l He _ IH]; cbn [filter]; [constructor |].
  destruct (f e); [constructor; assumption | exact IH].
Qed.

Lemma find_iface_filter_other h h' l n :
  h' <> h ->
  find_iface h'
    (mk_server (filter (fun e => negb (Nat.eqb (fst e) h)) l) n)
  = find_iface h' (mk_server l n).
Proof.
  intros Hne. unfold find_iface. cbn [interfaces_]. f_equal.
  induction l as [| e l IH]; [reflexivity |]. cbn [filter find].
  destruct (Nat.eqb (fst e) h) eqn:E; cbn [negb find].
  - apply Nat.eqb_eq in E.
    assert (E' : Nat.eqb (fst e) h' = false) by (apply Nat.eqb_neq; lia).
    now rewrite E'.
  - now rewrite IH.
Qed.

Lemma find_iface_with_fru_other h h' l n n' props initialized :
  h' <> h ->
  find_iface h' (with_fru l h n props initialized)
  = find_iface h' (mk_server l n').
Proof.
  intros Hne. unfold find_iface, with_fru. cbn [interfaces_]. f_equal.
  induction l as [| e l IH]; cbn [app find fst].
  - assert (E : Nat.eqb h h' = false) by (apply Nat.eqb_neq; lia).
    now rewrite E.
  - now rewrite IH.
Qed.

Lemma rescanBus_run char_signed fs iface l n bl il :
  fresh n l ->
  exists l' bl',
    rescanBus char_signed fs iface (mk_world (mk_server l n) bl il)
    = (Some n,
       mk_world (with_fru l' n (S n) (published_props char_signed fs) true)
                bl' (il ++ server_id_io fs ++ scan_io fs eeproms))
    /\ fresh n l'
    /\ l' = match iface with
            | Some h => filter (fun e => negb (Nat.eqb (fst e) h)) l
            | None => l
            end.
Proof.
  intros Hl. unfold rescanBus. destruct iface as [h |].
  - unfold bind at 1, remove_interface, update_server.
    cbn [objServer bus_log io_log interfaces_ next_handle].
    rewrite (AddFRUObjectToDbus_run _ _ _ _ _ _ _
               (fresh_filter n _ l Hl)).
    eexists _, _. split; [reflexivity |].
    split; [now apply fresh_filter | reflexivity].
  - unfold bind at 1, ret.
    rewrite (AddFRUObjectToDbus_run _ _ _ _ _ _ _ Hl).
    eexists _, _. split; [reflexivity |]. split; [exact Hl | reflexivity].
Qed.

(** X11: a scan publishes the same object whenever the identity file and
    the first candidate that opens have the same bytes: nothing else in
    the file system matters, neither the candidates that come after the
    first one that opens nor the path at which it was found. *)
Theorem scan_depends_on_two_files (char_signed : bool) (fs fs' : filesystem)
  (iface iface' : option handle) (w : world) :
  fresh (next_handle (objServer w)) (interfaces_ (objServer w)) ->
  fs server_id_path = fs' server_id_path ->
  first_open fs eeproms = first_open fs' eeproms ->
  objServer (snd (AddFRUObjectToDbus char_signed fs iface w))
  = objServer (snd (AddFRUObjectToDbus char_signed fs' iface' w)).
Proof.
  destruct w as [[l n] bl il]. cbn [objServer next_handle interfaces_].
  intros Hl Hid Hfirst.
  rewrite !(AddFRUObjectToDbus_run _ _ _ _ _ _ _ Hl). cbn [snd objServer].
  unfold published_props, scanned_props.
  now rewrite !server_id_value, Hid, Hfirst.
Qed.

Lemma scan_depends_on_two_files_witness :
  objServer
    (snd (AddFRUObjectToDbus false
            (fs_of [("/sys/bus/i2c/devices/2-0054/eeprom"%string,
                     repeat x41 176);
                    ("/sys/bus/i2c/devices/2-0050/eeprom"%string,
                     repeat x42 176)])
            None world0))
  = objServer
      (snd (AddFRUObjectToDbus false
              (fs_of [("/sys/bus/i2c/devices/2-0055/eeprom"%string,
                       repeat x41 176)])
              None world0)).
Proof.
  apply (scan_depends_on_two_files false); [constructor | reflexivity ..].
Defined.

(** X12: a rescan leaves every other object of the object server as it
    is: whatever objects the server holds, an object that is neither the
    one the reference points to nor the new one is the same after the
    rescan. *)
Theorem rescanBus_frame (char_signed : bool) (fs : filesystem)
  (iface : option handle) (w : world) (other : handle) :
  fresh (next_handle (objServer w)) (interfaces_ (objServer w)) ->
  iface <> Some other ->
  other <> next_handle (objServer w) ->
  find_iface other (objServer (snd (rescanBus char_signed fs iface w)))
  = find_iface other (objServer w).
Proof.
  destruct w as [[l n] bl il]. cbn [objServer next_handle interfaces_].
  intros Hl Hiface Hother.
  destruct (rescanBus_run char_signed fs iface l n bl il Hl)
    as (l' & bl' & -> & _ & ->).
  cbn [snd objServer].
  rewrite (find_iface_with_fru_other n other _ (S n) n _ _ Hother).
  destruct iface as [h |]; [| reflexivity].
  apply find_iface_filter_other. congruence.
Qed.

Lemma rescanBus_frame_witness :
  let w := snd (main_startup false (fs_of []) world0) in
  find_iface 0 (objServer (snd (rescanBus false (fs_of []) (Some 1) w)))
  = find_iface 0 (objServer w).
Proof.
  apply (rescanBus_frame false (fs_of []) (Some 1)
           (snd (main_startup false (fs_of []) world0)) 0).
  - repeat constructor; cbn; lia.
  - discriminate.
  - cbn. lia.
Defined.

(** X13: a rescan replaces the object the reference points to, whatever
    else the object server holds: the old handle is no longer in the
    server, the reference returned is a handle that was not in use, the
    object under it is at the FRU path, initialized, with the properties
    of a scan of the file system, and the counter of handles has
    advanced by one. *)
Theorem rescanBus_replaces (char_signed : bool) (fs : filesystem)
  (h : handle) (w : world) :
  fresh (next_handle (objServer w)) (interfaces_ (objServer w)) ->
  let n := next_handle (objServer w) in
  let r := rescanBus char_signed fs (Some h) w in
  fst r = Some n
  /\ (h <> n -> find_iface h (objServer (snd r)) = None)
  /\ find_iface n (objServer w) = None
  /\ find_iface n (objServer (snd r))
     = Some (fru_iface (published_props char_signed fs) true)
  /\ next_handle (objServer (snd r)) = S n.
Proof.
  destruct w as [[l n] bl il]. cbn [objServer next_handle interfaces_].
  intros Hl. cbv zeta.
  destruct (rescanBus_run char_signed fs (Some h) l n bl il Hl)
    as (l' & bl' & -> & Hl' & ->).
  cbn [fst snd objServer].
  split; [reflexivity |]. split; [| split; [| split]].
  - intros Hne.
    rewrite (find_iface_with_fru_other n h _ (S n) n _ _ Hne).
    apply (find_iface_removed h (mk_world (mk_server l n) bl il)).
  - clear Hl'. unfold find_iface. cbn [interfaces_].
    induction Hl as [| e l He _ IH]; [reflexivity |]. cbn [find].
    apply Nat.eqb_neq in He. rewrite He. exact IH.
  - now apply find_iface_with_fru.
  - reflexivity.
Qed.

Lemma rescanBus_replaces_witness :
  let w := snd (main_startup false (fs_of []) world0) in
  let r := rescanBus false (fs_of []) (Some 1) w in
  fst r = Some 2
  /\ find_iface 2 (objServer (snd r))
     = Some (fru_iface (published_props false (fs_of [])) true)
  /\ next_handle (objServer (snd r)) = 3.
Proof.
  destruct (rescanBus_replaces false (fs_of []) 1
              (snd (main_startup false (fs_of []) world0)))
    as (H1 & _ & _ & H4 & H5).
  - repeat constructor; cbn; lia.
  - exact (conj H1 (conj H4 H5)).
Defined.
